(** * Fixed-point simplex noise: a shallow embedding of [noise.go]

    The Go package computes 1D, 2D and 3D simplex noise with integer
    arithmetic only.  Every Go integer is modelled as a [Z] together with
    the wrap-around of its type written out; a table lookup and a division
    are fallible ([option]), as an out-of-range index and a zero divisor
    panic in Go. *)

From Stdlib Require Import ZArith List Lia Bool Permutation.
Import ListNotations.
Local Open Scope Z_scope.

(** ** Go's fixed-width integers *)

(** Two's-complement reduction of [z] to a signed [w]-bit integer. *)
Definition wrap (w z : Z) : Z := (z + 2 ^ (w - 1)) mod 2 ^ w - 2 ^ (w - 1).

(** The conversions [int16(..)], [int32(..)], [int64(..)] and [uint8(..)]. *)
Definition int16 (z : Z) : Z := wrap 16 z.
Definition int32 (z : Z) : Z := wrap 32 z.
Definition int64 (z : Z) : Z := wrap 64 z.
Definition uint8 (z : Z) : Z := z mod 256.

(** The values of each type. *)
Definition is_int16 (z : Z) : Prop := - 2 ^ 15 <= z < 2 ^ 15.
Definition is_int32 (z : Z) : Prop := - 2 ^ 31 <= z < 2 ^ 31.
Definition is_int64 (z : Z) : Prop := - 2 ^ 63 <= z < 2 ^ 63.
Definition is_uint8 (z : Z) : Prop := 0 <= z < 256.

(** Arithmetic at type [int32]: the result wraps. *)
Definition add32 (a b : Z) : Z := int32 (a + b).
Definition sub32 (a b : Z) : Z := int32 (a - b).
Definition mul32 (a b : Z) : Z := int32 (a * b).
Definition neg32 (a : Z) : Z := int32 (- a).
Definition shl32 (a n : Z) : Z := int32 (Z.shiftl a n).

(** Arithmetic at type [int64]. *)
Definition add64 (a b : Z) : Z := int64 (a + b).
Definition sub64 (a b : Z) : Z := int64 (a - b).
Definition mul64 (a b : Z) : Z := int64 (a * b).
Definition shl64 (a n : Z) : Z := int64 (Z.shiftl a n).

(** [a >> n] on a signed integer is the arithmetic shift: it rounds towards
    minus infinity and cannot overflow. *)
Definition shr (a n : Z) : Z := Z.shiftr a n.

(** [a / b] at type [int32] truncates towards zero; a zero divisor panics. *)
Definition div32 (a b : Z) : option Z :=
  if b =? 0 then None else Some (int32 (Z.quot a b)).

(** Sequencing of fallible steps. *)
Notation "'do' v <- e ; k" :=
  (match e with Some v => k | None => None end)
  (at level 10, v name, e at level 100, k at level 200, only parsing).

(** ** The permutation table *)

(** [var perm = [256]uint8{...}] *)
Definition perm : list Z :=
  [
    151; 160; 137; 91; 90; 15; 131; 13; 201; 95; 96; 53; 194; 233; 7; 225;
    140; 36; 103; 30; 69; 142; 8; 99; 37; 240; 21; 10; 23; 190; 6; 148;
    247; 120; 234; 75; 0; 26; 197; 62; 94; 252; 219; 203; 117; 35; 11; 32;
    57; 177; 33; 88; 237; 149; 56; 87; 174; 20; 125; 136; 171; 168; 68; 175;
    74; 165; 71; 134; 139; 48; 27; 166; 77; 146; 158; 231; 83; 111; 229; 122;
    60; 211; 133; 230; 220; 105; 92; 41; 55; 46; 245; 40; 244; 102; 143; 54;
    65; 25; 63; 161; 1; 216; 80; 73; 209; 76; 132; 187; 208; 89; 18; 169;
    200; 196; 135; 130; 116; 188; 159; 86; 164; 100; 109; 198; 173; 186; 3; 64;
    52; 217; 226; 250; 124; 123; 5; 202; 38; 147; 118; 126; 255; 82; 85; 212;
    207; 206; 59; 227; 47; 16; 58; 17; 182; 189; 28; 42; 223; 183; 170; 213;
    119; 248; 152; 2; 44; 154; 163; 70; 221; 153; 101; 155; 167; 43; 172; 9;
    129; 22; 39; 253; 19; 98; 108; 110; 79; 113; 224; 232; 178; 185; 112; 104;
    218; 246; 97; 228; 251; 34; 242; 193; 238; 210; 144; 12; 191; 179; 162; 241;
    81; 51; 145; 235; 249; 14; 239; 107; 49; 192; 214; 31; 181; 199; 106; 157;
    184; 84; 204; 176; 115; 121; 50; 45; 127; 4; 150; 254; 138; 236; 205; 93;
    222; 114; 67; 29; 24; 72; 243; 141; 128; 195; 78; 66; 215; 61; 156; 180
  ].

(** [perm[idx]]: Go checks the index against the array bounds at run time. *)
Definition perm_at (idx : Z) : option Z :=
  if (0 <=? idx) && (idx <? 256) then nth_error perm (Z.to_nat idx) else None.

(** The reference sequence of the specification (section 4.1), kept apart
    from [perm] so that the two can be compared. *)
Definition perm_documented : list Z :=
  [
    151; 160; 137; 91; 90; 15; 131; 13; 201; 95; 96; 53; 194; 233; 7; 225;
    140; 36; 103; 30; 69; 142; 8; 99; 37; 240; 21; 10; 23; 190; 6; 148;
    247; 120; 234; 75; 0; 26; 197; 62; 94; 252; 219; 203; 117; 35; 11; 32;
    57; 177; 33; 88; 237; 149; 56; 87; 174; 20; 125; 136; 171; 168; 68; 175;
    74; 165; 71; 134; 139; 48; 27; 166; 77; 146; 158; 231; 83; 111; 229; 122;
    60; 211; 133; 230; 220; 105; 92; 41; 55; 46; 245; 40; 244; 102; 143; 54;
    65; 25; 63; 161; 1; 216; 80; 73; 209; 76; 132; 187; 208; 89; 18; 169;
    200; 196; 135; 130; 116; 188; 159; 86; 164; 100; 109; 198; 173; 186; 3; 64;
    52; 217; 226; 250; 124; 123; 5; 202; 38; 147; 118; 126; 255; 82; 85; 212;
    207; 206; 59; 227; 47; 16; 58; 17; 182; 189; 28; 42; 223; 183; 170; 213;
    119; 248; 152; 2; 44; 154; 163; 70; 221; 153; 101; 155; 167; 43; 172; 9;
    129; 22; 39; 253; 19; 98; 108; 110; 79; 113; 224; 232; 178; 185; 112; 104;
    218; 246; 97; 228; 251; 34; 242; 193; 238; 210; 144; 12; 191; 179; 162; 241;
    81; 51; 145; 235; 249; 14; 239; 107; 49; 192; 214; 31; 181; 199; 106; 157;
    184; 84; 204; 176; 115; 121; 50; 45; 127; 4; 150; 254; 138; 236; 205; 93;
    222; 114; 67; 29; 24; 72; 243; 141; 128; 195; 78; 66; 215; 61; 156; 180
  ].

(** ** Gradient functions *)

(** [func q(cond bool, v1 int32, v2 int32) int32] *)
Definition q (cond : bool) (v1 v2 : Z) : Z := if cond then v1 else v2.

(** [func grad1(hash uint8, x int32) int32] *)
Definition grad1 (hash x : Z) : Z :=
  let h := Z.land hash 15 in
  let grad := int32 (uint8 (1 + Z.land h 7)) in
  let grad := if negb (Z.land h 8 =? 0) then neg32 grad else grad in
  mul32 grad x.

(** [func grad2(hash uint8, x, y int32) int32] *)
Definition grad2 (hash x y : Z) : Z :=
  let h := Z.land hash 7 in
  let u := q (h <? 4) x y in
  let v := q (h <? 4) y x in
  add32 (q (negb (Z.land h 1 =? 0)) (neg32 u) u)
        (q (negb (Z.land h 2 =? 0)) (mul32 (-2) v) (mul32 2 v)).

(** [func grad3(hash uint8, x, y, z int32) int32] *)
Definition grad3 (hash x y z : Z) : Z :=
  let h := Z.land hash 15 in
  let u := q (h <? 8) x y in
  let v := q (h <? 4) y (q ((h =? 12) || (h =? 14)) x z) in
  add32 (q (negb (Z.land h 1 =? 0)) (neg32 u) u)
        (q (negb (Z.land h 2 =? 0)) (neg32 v) v).

(** ** [Noise1]: 1D simplex noise *)

(** The local variables of [func Noise1(x int32) int16], one definition per
    assignment; [t0] and [t1] are assigned three times each. *)
Module N1.
Section locals.
Variable x : Z.

Definition i0 : Z := shr x 12.
Definition i1 : Z := add32 i0 1.
Definition x0 : Z := Z.land x 0xfff.
Definition x1 : Z := sub32 x0 0x1000.

(** [t0 := 0x8000 - (x0*x0)>>9] *)
Definition t0 : Z := sub32 0x8000 (shr (mul32 x0 x0) 9).
(** [t0 = (t0 * t0) >> 15], twice *)
Definition t0_sq : Z := shr (mul32 t0 t0) 15.
Definition t0_4 : Z := shr (mul32 t0_sq t0_sq) 15.
(** [n0 := (t0 * grad1(perm[i0&0xff], x0)) >> 12] *)
Definition n0 : option Z :=
  do h <- perm_at (Z.land i0 0xff);
  Some (shr (mul32 t0_4 (grad1 h x0)) 12).

(** [t1 := 0x8000 - (x1*x1)>>9] *)
Definition t1 : Z := sub32 0x8000 (shr (mul32 x1 x1) 9).
Definition t1_sq : Z := shr (mul32 t1 t1) 15.
Definition t1_4 : Z := shr (mul32 t1_sq t1_sq) 15.
(** [n1 := (t1 * grad1(perm[i1&0xff], x1)) >> 12] *)
Definition n1 : option Z :=
  do h <- perm_at (Z.land i1 0xff);
  Some (shr (mul32 t1_4 (grad1 h x1)) 12).
End locals.

(** The tail of the function, from the two contributions on:
    [n := n0 + n1; n += 2503; n = (n << 14) / 40225; return int16(n)]. *)
Definition finish (n0 n1 : Z) : option Z :=
  let n := add32 n0 n1 in
  let n := add32 n 2503 in
  do n <- div32 (shl32 n 14) 40225;
  Some (int16 n).
End N1.

(** [func Noise1(x int32) int16] *)
Definition Noise1 (x : Z) : option Z :=
  do n0 <- N1.n0 x;
  do n1 <- N1.n1 x;
  N1.finish n0 n1.

(** ** Corner contributions in 2D and 3D *)

(** The guarded block that every corner of [Noise2] and [Noise3] repeats:
    [var n int32; if t > 0 { t = (t*t) >> 16; t = (t*t) >> 16;
    n = int32((t >> 1) * g) }], where [g] is the gradient at the hashed
    corner.  [g] stands for the lookups and the gradient call, which Go runs
    only inside the branch: when the guard fails they are not consulted. *)
Definition corner (t : Z) (g : option Z) : option Z :=
  if 0 <? t then
    let t := shr (mul32 t t) 16 in
    let t := shr (mul32 t t) 16 in
    do g <- g;
    Some (mul32 (shr t 1) g)
  else Some 0.

(** ** [Noise2]: 2D simplex noise *)

Module N2.
Definition F2 : Z := 1572067135.
Definition G2 : Z := 907633384.

Section locals.
Variables x y : Z.

(** [s := int32(((int64(x) + int64(y)) * F2) >> 32)] *)
Definition s : Z := int32 (shr (mul64 (add64 (int64 x) (int64 y)) F2) 32).
(** [i := (x>>1 + s>>1) >> 11], [j := (y>>1 + s>>1) >> 11] *)
Definition i : Z := shr (add32 (shr x 1) (shr s 1)) 11.
Definition j : Z := shr (add32 (shr y 1) (shr s 1)) 11.

(** [t := ((int64(i) + int64(j)) * G2)] *)
Definition t : Z := mul64 (add64 (int64 i) (int64 j)) G2.
(** [X0 := (int64(i)<<32 - t)], [Y0 := (int64(j)<<32 - t)] *)
Definition X0 : Z := sub64 (shl64 (int64 i) 32) t.
Definition Y0 : Z := sub64 (shl64 (int64 j) 32) t.
(** [x0 := (int64(x)<<20 - X0)], [y0 := (int64(y)<<20 - Y0)] *)
Definition x0 : Z := sub64 (shl64 (int64 x) 20) X0.
Definition y0 : Z := sub64 (shl64 (int64 y) 20) Y0.

(** [if x0 > y0 { i1 = 1; j1 = 0 } else { i1 = 0; j1 = 1 }] *)
Definition i1 : Z := if y0 <? x0 then 1 else 0.
Definition j1 : Z := if y0 <? x0 then 0 else 1.

(** [x1 := x0 - int64(i1)<<32 + G2], [y1 := y0 - int64(j1)<<32 + G2] *)
Definition x1 : Z := add64 (sub64 x0 (shl64 (int64 i1) 32)) G2.
Definition y1 : Z := add64 (sub64 y0 (shl64 (int64 j1) 32)) G2.
(** [x2 := x0 - (1 << 32) + 2*G2], [y2 := y0 - (1 << 32) + 2*G2] *)
Definition x2 : Z := add64 (sub64 x0 (Z.shiftl 1 32)) (2 * G2).
Definition y2 : Z := add64 (sub64 y0 (Z.shiftl 1 32)) (2 * G2).

(** [int32(((1 << 31) - (a>>16)*(a>>16) - (b>>16)*(b>>16)) >> 16)], the
    initial value of [t0], [t1] and [t2]. *)
Definition falloff (a b : Z) : Z :=
  int32 (shr (sub64 (sub64 (Z.shiftl 1 31)
                           (mul64 (shr a 16) (shr a 16)))
                    (mul64 (shr b 16) (shr b 16))) 16).

Definition t0 : Z := falloff x0 y0.
Definition t1 : Z := falloff x1 y1.
Definition t2 : Z := falloff x2 y2.

(** [grad2(perm[(i+int32(perm[j&0xff]))&0xff], int32(x0>>17), int32(y0>>17))] *)
Definition g0 : option Z :=
  do pj <- perm_at (Z.land j 0xff);
  do h <- perm_at (Z.land (add32 i (int32 pj)) 0xff);
  Some (grad2 h (int32 (shr x0 17)) (int32 (shr y0 17))).
(** [grad2(perm[(i+i1+int32(perm[(j+j1)&0xff]))&0xff], int32(x1>>17), int32(y1>>17))] *)
Definition g1 : option Z :=
  do pj <- perm_at (Z.land (add32 j j1) 0xff);
  do h <- perm_at (Z.land (add32 (add32 i i1) (int32 pj)) 0xff);
  Some (grad2 h (int32 (shr x1 17)) (int32 (shr y1 17))).
(** [grad2(perm[(i+1+int32(perm[(j+1)&0xff]))&0xff], int32(x2>>17), int32(y2>>17))] *)
Definition g2 : option Z :=
  do pj <- perm_at (Z.land (add32 j 1) 0xff);
  do h <- perm_at (Z.land (add32 (add32 i 1) (int32 pj)) 0xff);
  Some (grad2 h (int32 (shr x2 17)) (int32 (shr y2 17))).

(** [var n0, n1, n2 int32] and the three guarded blocks. *)
Definition n0 : option Z := corner t0 g0.
Definition n1 : option Z := corner t1 g1.
Definition n2 : option Z := corner t2 g2.
End locals.

(** [n := n0 + n1 + n2; n = (n << 6) / 46360; return int16(n)] *)
Definition finish (n0 n1 n2 : Z) : option Z :=
  let n := add32 (add32 n0 n1) n2 in
  do n <- div32 (shl32 n 6) 46360;
  Some (int16 n).
End N2.

(** [func Noise2(x, y int32) int16] *)
Definition Noise2 (x y : Z) : option Z :=
  do n0 <- N2.n0 x y;
  do n1 <- N2.n1 x y;
  do n2 <- N2.n2 x y;
  N2.finish n0 n1 n2.

(** ** [Noise3]: 3D simplex noise *)

Module N3.
Definition F3 : Z := 1431655764.
Definition G3 : Z := 715827884.
Definition fix0_6 : Z := 2576980378.

(** The comparison cascade that orders the axes; it yields
    [((i1, j1, k1), (i2, j2, k2))]. *)
Definition order (x0 y0 z0 : Z) : (Z * Z * Z) * (Z * Z * Z) :=
  if y0 <=? x0 then
    if z0 <=? y0 then ((1, 0, 0), (1, 1, 0))        (* X Y Z order *)
    else if z0 <=? x0 then ((1, 0, 0), (1, 0, 1))   (* X Z Y order *)
    else ((0, 0, 1), (1, 0, 1))                     (* Z X Y order *)
  else
    if y0 <? z0 then ((0, 0, 1), (0, 1, 1))         (* Z Y X order *)
    else if x0 <? z0 then ((0, 1, 0), (0, 1, 1))    (* Y Z X order *)
    else ((0, 1, 0), (1, 1, 0)).                    (* Y X Z order *)

Section locals.
Variables x y z : Z.

(** [s := int32(((int64(x) + int64(y) + int64(z)) * F3) >> 32)] *)
Definition s : Z :=
  int32 (shr (mul64 (add64 (add64 (int64 x) (int64 y)) (int64 z)) F3) 32).
Definition i : Z := shr (add32 (shr x 1) (shr s 1)) 11.
Definition j : Z := shr (add32 (shr y 1) (shr s 1)) 11.
Definition k : Z := shr (add32 (shr z 1) (shr s 1)) 11.

(** [t := ((int64(i) + int64(j) + int64(k)) * G3)] *)
Definition t : Z := mul64 (add64 (add64 (int64 i) (int64 j)) (int64 k)) G3.
Definition X0 : Z := sub64 (shl64 (int64 i) 32) t.
Definition Y0 : Z := sub64 (shl64 (int64 j) 32) t.
Definition Z0 : Z := sub64 (shl64 (int64 k) 32) t.
Definition x0 : Z := sub64 (shl64 (int64 x) 20) X0.
Definition y0 : Z := sub64 (shl64 (int64 y) 20) Y0.
Definition z0 : Z := sub64 (shl64 (int64 z) 20) Z0.

(** [var i1, j1, k1 int32; var i2, j2, k2 int32], set by the cascade. *)
Definition i1 : Z := fst (fst (fst (order x0 y0 z0))).
Definition j1 : Z := snd (fst (fst (order x0 y0 z0))).
Definition k1 : Z := snd (fst (order x0 y0 z0)).
Definition i2 : Z := fst (fst (snd (order x0 y0 z0))).
Definition j2 : Z := snd (fst (snd (order x0 y0 z0))).
Definition k2 : Z := snd (snd (order x0 y0 z0)).

(** [x1 := x0 - int64(i1)<<32 + G3] and so on. *)
Definition x1 : Z := add64 (sub64 x0 (shl64 (int64 i1) 32)) G3.
Definition y1 : Z := add64 (sub64 y0 (shl64 (int64 j1) 32)) G3.
Definition z1 : Z := add64 (sub64 z0 (shl64 (int64 k1) 32)) G3.
Definition x2 : Z := add64 (sub64 x0 (shl64 (int64 i2) 32)) (2 * G3).
Definition y2 : Z := add64 (sub64 y0 (shl64 (int64 j2) 32)) (2 * G3).
Definition z2 : Z := add64 (sub64 z0 (shl64 (int64 k2) 32)) (2 * G3).
Definition x3 : Z := add64 (sub64 x0 (Z.shiftl 1 32)) (3 * G3).
Definition y3 : Z := add64 (sub64 y0 (Z.shiftl 1 32)) (3 * G3).
Definition z3 : Z := add64 (sub64 z0 (Z.shiftl 1 32)) (3 * G3).

(** [int32((fix0_6 - (a>>16)*(a>>16) - (b>>16)*(b>>16) - (c>>16)*(c>>16)) >> 16)],
    the initial value of [t0] to [t3]. *)
Definition falloff (a b c : Z) : Z :=
  int32 (shr (sub64 (sub64 (sub64 fix0_6
                                  (mul64 (shr a 16) (shr a 16)))
                           (mul64 (shr b 16) (shr b 16)))
                    (mul64 (shr c 16) (shr c 16))) 16).

Definition t0 : Z := falloff x0 y0 z0.
Definition t1 : Z := falloff x1 y1 z1.
Definition t2 : Z := falloff x2 y2 z2.
Definition t3 : Z := falloff x3 y3 z3.

(** [perm[(a+int32(perm[(b+int32(perm[c&0xff]))&0xff]))&0xff]], the hash of
    the lattice point [(a, b, c)]. *)
Definition hash (a b c : Z) : option Z :=
  do pk <- perm_at (Z.land c 0xff);
  do pj <- perm_at (Z.land (add32 b (int32 pk)) 0xff);
  perm_at (Z.land (add32 a (int32 pj)) 0xff).

Definition g0 : option Z :=
  do h <- hash i j k;
  Some (grad3 h (int32 (shr x0 17)) (int32 (shr y0 17)) (int32 (shr z0 17))).
Definition g1 : option Z :=
  do h <- hash (add32 i i1) (add32 j j1) (add32 k k1);
  Some (grad3 h (int32 (shr x1 17)) (int32 (shr y1 17)) (int32 (shr z1 17))).
Definition g2 : option Z :=
  do h <- hash (add32 i i2) (add32 j j2) (add32 k k2);
  Some (grad3 h (int32 (shr x2 17)) (int32 (shr y2 17)) (int32 (shr z2 17))).
Definition g3 : option Z :=
  do h <- hash (add32 i 1) (add32 j 1) (add32 k 1);
  Some (grad3 h (int32 (shr x3 17)) (int32 (shr y3 17)) (int32 (shr z3 17))).

(** [var n0, n1, n2, n3 int32] and the four guarded blocks. *)
Definition n0 : option Z := corner t0 g0.
Definition n1 : option Z := corner t1 g1.
Definition n2 : option Z := corner t2 g2.
Definition n3 : option Z := corner t3 g3.
End locals.

(** [n := n0 + n1 + n2 + n3; n = (n << 6) / 64120; return int16(n)] *)
Definition finish (n0 n1 n2 n3 : Z) : option Z :=
  let n := add32 (add32 (add32 n0 n1) n2) n3 in
  do n <- div32 (shl32 n 6) 64120;
  Some (int16 n).
End N3.

(** [func Noise3(x, y, z int32) int16] *)
Definition Noise3 (x y z : Z) : option Z :=
  do n0 <- N3.n0 x y z;
  do n1 <- N3.n1 x y z;
  do n2 <- N3.n2 x y z;
  do n3 <- N3.n3 x y z;
  N3.finish n0 n1 n2 n3.

(** * Auxiliary definitions for the statements *)

(** The integers [0 .. n-1].  A boolean test that passes on this list holds
    on every value of the interval, which turns a finite check into a
    quantified statement. *)
Definition upto (n : nat) : list Z := map Z.of_nat (seq 0 n).

(** The magnitude and the sign carried by a hash byte, as the
    specification words them: low three bits plus one, and bit 3. *)
Definition grad1_magnitude (hash : Z) : Z := 1 + Z.land hash 7.
Definition grad1_sign (hash : Z) : Z := if Z.testbit hash 3 then -1 else 1.

(** The factor [grad] that [grad1] has computed when it reaches its
    [return grad * x]. *)
Definition grad1_factor (hash : Z) : Z :=
  let h := Z.land hash 15 in
  let grad := int32 (uint8 (1 + Z.land h 7)) in
  if negb (Z.land h 8 =? 0) then neg32 grad else grad.

(** [Noise2] and [Noise3] with the gradient terms of their corners (the
    table lookups and the [grad2] / [grad3] call) replaced by arbitrary
    outcomes; everything else is the code of the evaluator. *)
Definition Noise2_with (g0 g1 g2 : option Z) (x y : Z) : option Z :=
  do n0 <- corner (N2.t0 x y) g0;
  do n1 <- corner (N2.t1 x y) g1;
  do n2 <- corner (N2.t2 x y) g2;
  N2.finish n0 n1 n2.

Definition Noise3_with (g0 g1 g2 g3 : option Z) (x y z : Z) : option Z :=
  do n0 <- corner (N3.t0 x y z) g0;
  do n1 <- corner (N3.t1 x y z) g1;
  do n2 <- corner (N3.t2 x y z) g2;
  do n3 <- corner (N3.t3 x y z) g3;
  N3.finish n0 n1 n2 n3.

(** The fourth power of the falloff of [Noise1] for an offset [a], in
    unbounded integer arithmetic: [0x8000 - (a*a)>>9], squared and shifted
    by 15 twice. *)
Definition falloff4 (a : Z) : Z :=
  let t := 0x8000 - Z.shiftr (a * a) 9 in
  let t := Z.shiftr (t * t) 15 in
  Z.shiftr (t * t) 15.

(** The largest magnitudes the products [t0 * grad1(..)] and
    [t1 * grad1(..)] of [Noise1] can reach at the fractional offset [x0],
    the gradient factor being at most 8 in absolute value. *)
Definition N1_mag0 (x0 : Z) : Z := falloff4 x0 * (8 * x0).
Definition N1_mag1 (x0 : Z) : Z := falloff4 (x0 - 0x1000) * (8 * (0x1000 - x0)).

(** With those magnitudes the biased sum [n0 + n1 + 2503] stays strictly
    inside [-2^17, 2^17], so that its shift by 14 fits an [int32]. *)
Definition N1_sum_fits (x0 : Z) : bool :=
  (shr (N1_mag0 x0) 12 + shr (N1_mag1 x0) 12 + 2503 <? 131072)
  && (- 131072 <? shr (- N1_mag0 x0) 12 + shr (- N1_mag1 x0) 12 + 2503).

(** * Further definitions: gradients as dot products *)

(** The gradient directions that [grad2] selects with [hash & 7]: the pair
    [(a, b)] stands for the dot product [a*x + b*y]. *)
Definition grad2_dirs : list (Z * Z) :=
  [(1, 2); (-1, 2); (1, -2); (-1, -2); (2, 1); (2, -1); (-2, 1); (-2, -1)].

Definition grad2_dir (hash : Z) : Z * Z :=
  nth (Z.to_nat (Z.land hash 7)) grad2_dirs (0, 0).

(** The gradient directions that [grad3] selects with [hash & 15]; the
    triple [(a, b, c)] stands for [a*x + b*y + c*z]. *)
Definition grad3_dirs : list (Z * Z * Z) :=
  [(1, 1, 0); (-1, 1, 0); (1, -1, 0); (-1, -1, 0);
   (1, 0, 1); (-1, 0, 1); (1, 0, -1); (-1, 0, -1);
   (0, 1, 1); (0, -1, 1); (0, 1, -1); (0, -1, -1);
   (1, 1, 0); (0, -1, 1); (-1, 1, 0); (0, -1, -1)].

Definition grad3_dir (hash : Z) : Z * Z * Z :=
  nth (Z.to_nat (Z.land hash 15)) grad3_dirs (0, 0, 0).

(** The midpoints of the twelve edges of the cube [-1, 1]^3: two
    coordinates are 1 or -1 and one is 0. *)
Definition is_cube_edge (d : Z * Z * Z) : Prop :=
  let '(a, b, c) := d in
  Z.abs a <= 1 /\ Z.abs b <= 1 /\ Z.abs c <= 1 /\
  Z.abs a + Z.abs b + Z.abs c = 2.

(** * Further definitions: [Noise1] over unbounded integers *)

(** The table entry at position [i mod 256], which is what
    [perm[i & 0xff]] reads. *)
Definition perm_byte (i : Z) : Z := nth (Z.to_nat (i mod 256)) perm 0.

(** The biased sum [n0 + n1 + 2503] of [Noise1] for the falloff powers
    [T0], [T1], the fractional offset [x0] and the gradient factors [c0],
    [c1] of the two lattice points, without wrap-around. *)
Definition N1_biased (T0 T1 x0 c0 c1 : Z) : Z :=
  Z.shiftr (T0 * (c0 * x0)) 12 + Z.shiftr (T1 * (c1 * (x0 - 0x1000))) 12 + 2503.

(** [Noise1] computed in unbounded integers, with no conversion to
    [int16] at the end. *)
Definition Noise1_exact (x : Z) : Z :=
  let i0 := Z.shiftr x 12 in
  let x0 := Z.land x 0xfff in
  let c0 := grad1_factor (perm_byte i0) in
  let c1 := grad1_factor (perm_byte (i0 + 1)) in
  Z.quot (N1_biased (falloff4 x0) (falloff4 (x0 - 0x1000)) x0 c0 c1 * 16384)
         40225.

(** The gradient factors of neighbouring lattice points, for every position
    of the table. *)
Definition factor_pairs : list (Z * Z) :=
  map (fun k => (grad1_factor (perm_byte k), grad1_factor (perm_byte (k + 1))))
      (upto 256).

(** For each factor [c0] of the left lattice point, the least and the
    greatest factor that the table puts on its right neighbour. *)
Definition c1_min (c0 : Z) : Z :=
  fold_right (fun p m => if fst p =? c0 then Z.min (snd p) m else m)
             8 factor_pairs.
Definition c1_max (c0 : Z) : Z :=
  fold_right (fun p m => if fst p =? c0 then Z.max (snd p) m else m)
             (-8) factor_pairs.

Definition factor_envelope : list (Z * (Z * Z)) :=
  map (fun c0 => (c0, (c1_min c0, c1_max c0)))
      (nodup Z.eq_dec (map fst factor_pairs)).

(** Every pair of [pairs] lies inside an entry of the envelope [env]. *)
Definition covers (env : list (Z * (Z * Z))) (pairs : list (Z * Z)) : bool :=
  forallb (fun p =>
             existsb (fun e => (fst e =? fst p)
                               && (fst (snd e) <=? snd p)
                               && (snd p <=? snd (snd e)))
                     env)
          pairs.

(** The biased sum at the extreme neighbours stays in [-80442, 80448], at
    the fractional offset [x0] and for every left factor. *)
Definition N1_extremes_ok (env : list (Z * (Z * Z))) (x0 : Z) : bool :=
  let T0 := falloff4 x0 in
  let T1 := falloff4 (x0 - 0x1000) in
  forallb (fun e =>
             (N1_biased T0 T1 x0 (fst e) (fst (snd e)) <=? 80448)
             && (-80442 <=? N1_biased T0 T1 x0 (fst e) (snd (snd e))))
          env.

(** * Further definitions: [Noise2] and [Noise3] over unbounded integers *)

(** The contribution of a corner in unbounded integers: the guarded block
    of [corner] with the gradient [g] already at hand. *)
Definition weigh (t g : Z) : Z :=
  if 0 <? t then
    let t := Z.shiftr (t * t) 16 in
    let t := Z.shiftr (t * t) 16 in
    Z.shiftr t 1 * g
  else 0.

(** [grad2] and [grad3] without the final wrap. *)
Definition dot2 (hash u v : Z) : Z :=
  fst (grad2_dir hash) * u + snd (grad2_dir hash) * v.

Definition dot3 (hash u v w : Z) : Z :=
  let '(a, b, c) := grad3_dir hash in a * u + b * v + c * w.

(** The statements of [Noise2] up to the three contributions, every
    operation taken in unbounded integers. *)
Module N2Z.
Section locals.
Variables x y : Z.

Definition s : Z := Z.shiftr ((x + y) * N2.F2) 32.
Definition i : Z := Z.shiftr (Z.shiftr x 1 + Z.shiftr s 1) 11.
Definition j : Z := Z.shiftr (Z.shiftr y 1 + Z.shiftr s 1) 11.

Definition t : Z := (i + j) * N2.G2.
Definition X0 : Z := Z.shiftl i 32 - t.
Definition Y0 : Z := Z.shiftl j 32 - t.
Definition x0 : Z := Z.shiftl x 20 - X0.
Definition y0 : Z := Z.shiftl y 20 - Y0.

Definition i1 : Z := if y0 <? x0 then 1 else 0.
Definition j1 : Z := if y0 <? x0 then 0 else 1.

Definition x1 : Z := x0 - Z.shiftl i1 32 + N2.G2.
Definition y1 : Z := y0 - Z.shiftl j1 32 + N2.G2.
Definition x2 : Z := x0 - Z.shiftl 1 32 + 2 * N2.G2.
Definition y2 : Z := y0 - Z.shiftl 1 32 + 2 * N2.G2.

Definition falloff (a b : Z) : Z :=
  Z.shiftr (Z.shiftl 1 31 - Z.shiftr a 16 * Z.shiftr a 16
            - Z.shiftr b 16 * Z.shiftr b 16) 16.

Definition t0 : Z := falloff x0 y0.
Definition t1 : Z := falloff x1 y1.
Definition t2 : Z := falloff x2 y2.

Definition n0 : Z :=
  weigh t0 (dot2 (perm_byte (i + perm_byte j))
                 (Z.shiftr x0 17) (Z.shiftr y0 17)).
Definition n1 : Z :=
  weigh t1 (dot2 (perm_byte (i + i1 + perm_byte (j + j1)))
                 (Z.shiftr x1 17) (Z.shiftr y1 17)).
Definition n2 : Z :=
  weigh t2 (dot2 (perm_byte (i + 1 + perm_byte (j + 1)))
                 (Z.shiftr x2 17) (Z.shiftr y2 17)).
End locals.
End N2Z.

(** The statements of [Noise3] up to the four contributions, every
    operation taken in unbounded integers. *)
Module N3Z.
Section locals.
Variables x y z : Z.

Definition s : Z := Z.shiftr ((x + y + z) * N3.F3) 32.
Definition i : Z := Z.shiftr (Z.shiftr x 1 + Z.shiftr s 1) 11.
Definition j : Z := Z.shiftr (Z.shiftr y 1 + Z.shiftr s 1) 11.
Definition k : Z := Z.shiftr (Z.shiftr z 1 + Z.shiftr s 1) 11.

Definition t : Z := (i + j + k) * N3.G3.
Definition X0 : Z := Z.shiftl i 32 - t.
Definition Y0 : Z := Z.shiftl j 32 - t.
Definition Z0 : Z := Z.shiftl k 32 - t.
Definition x0 : Z := Z.shiftl x 20 - X0.
Definition y0 : Z := Z.shiftl y 20 - Y0.
Definition z0 : Z := Z.shiftl z 20 - Z0.

Definition i1 : Z := fst (fst (fst (N3.order x0 y0 z0))).
Definition j1 : Z := snd (fst (fst (N3.order x0 y0 z0))).
Definition k1 : Z := snd (fst (N3.order x0 y0 z0)).
Definition i2 : Z := fst (fst (snd (N3.order x0 y0 z0))).
Definition j2 : Z := snd (fst (snd (N3.order x0 y0 z0))).
Definition k2 : Z := snd (snd (N3.order x0 y0 z0)).

Definition x1 : Z := x0 - Z.shiftl i1 32 + N3.G3.
Definition y1 : Z := y0 - Z.shiftl j1 32 + N3.G3.
Definition z1 : Z := z0 - Z.shiftl k1 32 + N3.G3.
Definition x2 : Z := x0 - Z.shiftl i2 32 + 2 * N3.G3.
Definition y2 : Z := y0 - Z.shiftl j2 32 + 2 * N3.G3.
Definition z2 : Z := z0 - Z.shiftl k2 32 + 2 * N3.G3.
Definition x3 : Z := x0 - Z.shiftl 1 32 + 3 * N3.G3.
Definition y3 : Z := y0 - Z.shiftl 1 32 + 3 * N3.G3.
Definition z3 : Z := z0 - Z.shiftl 1 32 + 3 * N3.G3.

Definition falloff (a b c : Z) : Z :=
  Z.shiftr (N3.fix0_6 - Z.shiftr a 16 * Z.shiftr a 16
            - Z.shiftr b 16 * Z.shiftr b 16
            - Z.shiftr c 16 * Z.shiftr c 16) 16.

Definition t0 : Z := falloff x0 y0 z0.
Definition t1 : Z := falloff x1 y1 z1.
Definition t2 : Z := falloff x2 y2 z2.
Definition t3 : Z := falloff x3 y3 z3.

Definition hash (a b c : Z) : Z := perm_byte (a + perm_byte (b + perm_byte c)).

Definition n0 : Z :=
  weigh t0 (dot3 (hash i j k)
                 (Z.shiftr x0 17) (Z.shiftr y0 17) (Z.shiftr z0 17)).
Definition n1 : Z :=
  weigh t1 (dot3 (hash (i + i1) (j + j1) (k + k1))
                 (Z.shiftr x1 17) (Z.shiftr y1 17) (Z.shiftr z1 17)).
Definition n2 : Z :=
  weigh t2 (dot3 (hash (i + i2) (j + j2) (k + k2))
                 (Z.shiftr x2 17) (Z.shiftr y2 17) (Z.shiftr z2 17)).
Definition n3 : Z :=
  weigh t3 (dot3 (hash (i + 1) (j + 1) (k + 1))
                 (Z.shiftr x3 17) (Z.shiftr y3 17) (Z.shiftr z3 17)).
End locals.
End N3Z.

(** * Further definitions: a bound on the contributions of [Noise2] *)

(** The weight [t^4 >> 1] (Q.15) that a corner with falloff [t] gives to
    its gradient. *)
Definition N2_T4 (t : Z) : Z :=
  let t2 := Z.shiftr (t * t) 16 in
  Z.shiftr (Z.shiftr (t2 * t2) 16) 1.

(** The largest magnitude of the contribution of a corner of [Noise2] whose
    falloff is [t]: the squared distance to the corner is then at most
    [2^31 - 65536*t] in Q.32, and a gradient of squared length 5 gives at
    most the square root of five times that distance. *)
Definition N2_bound (t : Z) : Z :=
  if 0 <? t then
    N2_T4 t * ((Z.sqrt (5 * (2147483648 - 65536 * t)) + 3) / 2)
  else 0.

(** The greatest bound over the 1024 falloff values of a bucket. *)
Definition N2_bucket (b : Z) : Z :=
  fold_right Z.max 0 (map (fun r => N2_bound (1024 * b + r)) (upto 1024)).

Definition N2_buckets : list Z := Eval vm_compute in map N2_bucket (upto 33).

Definition N2_bucket_of (b : Z) : Z := nth (Z.to_nat b) N2_buckets 0.

(** The bucket [b] bounds the contribution at the falloff [1024*b + r]. *)
Definition N2_dominated (b r : Z) : bool :=
  N2_bound (1024 * b + r) <=? N2_bucket_of b.

(** Three buckets that can occur together (the falloffs of the three
    corners of a simplex add up to at most 54633, and any two of them to at
    most 43700) leave the sum of the contributions below 2^25. *)
Definition N2_triple_ok (a b c : Z) : bool :=
  if (1024 * (a + b) <=? 43700) && (1024 * (a + c) <=? 43700)
     && (1024 * (b + c) <=? 43700) && (1024 * (a + b + c) <=? 54633)
  then N2_bucket_of a + N2_bucket_of b + N2_bucket_of c <? 33554432
  else true.

(** * Properties *)

(** ** Machine integers *)

Lemma wrap_range (w z : Z) : 0 < w -> - 2 ^ (w - 1) <= wrap w z < 2 ^ (w - 1).
Proof.
  intros Hw. unfold wrap.
  assert (Hp : 2 ^ w = 2 * 2 ^ (w - 1)).
  { replace w with (Z.succ (w - 1)) at 1 by lia. apply Z.pow_succ_r. lia. }
  assert (0 < 2 ^ (w - 1)) by (apply Z.pow_pos_nonneg; lia).
  pose proof (Z.mod_pos_bound (z + 2 ^ (w - 1)) (2 ^ w)). lia.
Qed.

Lemma wrap_id (w z : Z) :
  0 < w -> - 2 ^ (w - 1) <= z < 2 ^ (w - 1) -> wrap w z = z.
Proof.
  intros Hw Hz. unfold wrap.
  assert (Hp : 2 ^ w = 2 * 2 ^ (w - 1)).
  { replace w with (Z.succ (w - 1)) at 1 by lia. apply Z.pow_succ_r. lia. }
  rewrite Z.mod_small by lia. lia.
Qed.

(** Wrapping changes a value by a multiple of the modulus. *)
Lemma wrap_eqm (w z : Z) : 0 < w -> exists k, wrap w z = z + k * 2 ^ w.
Proof.
  intros Hw. unfold wrap. exists (- ((z + 2 ^ (w - 1)) / 2 ^ w)).
  assert (0 < 2 ^ w) by (apply Z.pow_pos_nonneg; lia).
  pose proof (Z.div_mod (z + 2 ^ (w - 1)) (2 ^ w)). lia.
Qed.

Lemma wrap_shift (w z k : Z) : wrap w (z + k * 2 ^ w) = wrap w z.
Proof.
  unfold wrap.
  replace (z + k * 2 ^ w + 2 ^ (w - 1)) with (z + 2 ^ (w - 1) + k * 2 ^ w) by ring.
  now rewrite Z_mod_plus_full.
Qed.

Lemma int32_range z : is_int32 (int32 z).
Proof. apply (wrap_range 32); lia. Qed.

Lemma int16_range z : is_int16 (int16 z).
Proof. apply (wrap_range 16); lia. Qed.

Lemma int32_id z : is_int32 z -> int32 z = z.
Proof. apply (wrap_id 32); lia. Qed.

Lemma int32_eqm z : exists k, int32 z = z + k * 2 ^ 32.
Proof. apply wrap_eqm. lia. Qed.

Lemma int32_shift z k : int32 (z + k * 2 ^ 32) = int32 z.
Proof. apply wrap_shift. Qed.

(** Masking with [2^n - 1] keeps the low [n] bits, whatever the sign. *)
Lemma land_mask (z n : Z) : 0 <= n -> Z.land z (2 ^ n - 1) = z mod 2 ^ n.
Proof.
  intros Hn. rewrite <- Z.land_ones by assumption.
  now rewrite Z.ones_equiv, <- Z.sub_1_r.
Qed.

Lemma land_0xff z : Z.land z 0xff = z mod 256.
Proof. apply (land_mask z 8). lia. Qed.

Lemma land_0xfff z : Z.land z 0xfff = z mod 4096.
Proof. apply (land_mask z 12). lia. Qed.

Lemma land_0xff_range z : 0 <= Z.land z 0xff < 256.
Proof. rewrite land_0xff. apply Z.mod_pos_bound. lia. Qed.

Lemma shr_div (a n : Z) : 0 <= n -> shr a n = a / 2 ^ n.
Proof. intros. now apply Z.shiftr_div_pow2. Qed.

Lemma upto_spec (n : nat) (z : Z) : In z (upto n) <-> 0 <= z < Z.of_nat n.
Proof.
  unfold upto. rewrite in_map_iff. split.
  - intros (m & <- & Hm). apply in_seq in Hm. lia.
  - intros Hz. exists (Z.to_nat z). split; [lia | apply in_seq; lia].
Qed.

Lemma forallb_upto (f : Z -> bool) (n : nat) :
  forallb f (upto n) = true -> forall z, 0 <= z < Z.of_nat n -> f z = true.
Proof.
  intros H z Hz. rewrite forallb_forall in H. apply H, upto_spec, Hz.
Qed.

(** ** The table *)

Lemma perm_length : length perm = 256%nat.
Proof. reflexivity. Qed.

Lemma perm_bytes : Forall is_uint8 perm.
Proof.
  apply Forall_forall. intros v Hv.
  assert (H : forallb (fun v => (0 <=? v) && (v <? 256)) perm = true)
    by (vm_compute; reflexivity).
  rewrite forallb_forall in H. specialize (H v Hv). unfold is_uint8. lia.
Qed.

Lemma perm_count (v : Z) : is_uint8 v -> count_occ Z.eq_dec perm v = 1%nat.
Proof.
  intros Hv.
  assert (H : forallb (fun v => Nat.eqb (count_occ Z.eq_dec perm v) 1) (upto 256) = true)
    by (vm_compute; reflexivity).
  apply Nat.eqb_eq. revert v Hv. apply forallb_upto with (n := 256%nat), H.
Qed.

Lemma perm_NoDup : NoDup perm.
Proof.
  apply (NoDup_count_occ' Z.eq_dec). intros v Hv. apply perm_count.
  pose proof perm_bytes as H. rewrite Forall_forall in H. now apply H.
Qed.

(** An index in range always finds a byte. *)
Lemma perm_at_in_range (idx : Z) :
  0 <= idx < 256 -> exists h, perm_at idx = Some h /\ is_uint8 h.
Proof.
  intros Hi. unfold perm_at.
  replace ((0 <=? idx) && (idx <? 256)) with true by lia.
  destruct (nth_error perm (Z.to_nat idx)) as [h |] eqn:E.
  - exists h. split; [reflexivity |].
    pose proof perm_bytes as H. rewrite Forall_forall in H.
    eapply H, nth_error_In, E.
  - apply nth_error_None in E. rewrite perm_length in E. lia.
Qed.

Lemma perm_at_masked (z : Z) :
  exists h, perm_at (Z.land z 0xff) = Some h /\ is_uint8 h.
Proof. apply perm_at_in_range, land_0xff_range. Qed.

(** Resolves every masked lookup in the goal, as in the nested
    [perm[(a + int32(perm[b & 0xff])) & 0xff]]. *)
Ltac lookup_masked :=
  repeat match goal with
    | |- context [perm_at (Z.land ?e 0xff)] =>
        let h := fresh "h" in
        destruct (perm_at_masked e) as (h & -> & _)
    end.

(** C1. The table is the documented 256-byte sequence, entry for entry
    (beginning 151, 160, 137, 91 and ending 156, 180), and it is a
    permutation of 0..255: each byte value occurs exactly once. *)
Theorem perm_is_documented_permutation :
  perm = perm_documented /\
  length perm = 256%nat /\
  firstn 4 perm = [151; 160; 137; 91] /\
  skipn 254 perm = [156; 180] /\
  Forall is_uint8 perm /\
  (forall v, is_uint8 v -> count_occ Z.eq_dec perm v = 1%nat) /\
  Permutation perm (upto 256).
Proof.
  split; [reflexivity |].
  split; [reflexivity |].
  split; [reflexivity |].
  split; [reflexivity |].
  split; [apply perm_bytes |].
  split; [apply perm_count |].
  apply NoDup_Permutation_bis.
  - apply perm_NoDup.
  - unfold upto. rewrite length_map, length_seq, perm_length. lia.
  - intros v Hv. apply upto_spec.
    pose proof perm_bytes as H. rewrite Forall_forall in H.
    apply (H v Hv).
Qed.

Lemma perm_is_documented_permutation_witness :
  is_uint8 36 /\ count_occ Z.eq_dec perm 36 = 1%nat.
Proof.
  split.
  - unfold is_uint8. lia.
  - apply perm_is_documented_permutation. unfold is_uint8. lia.
Defined.

(** ** [grad1] *)
Lemma grad1_unfold (hash x : Z) : grad1 hash x = mul32 (grad1_factor hash) x.
Proof. reflexivity. Qed.

Lemma grad1_factor_spec (hash : Z) :
  is_uint8 hash ->
  grad1_factor hash = grad1_sign hash * grad1_magnitude hash /\
  1 <= grad1_magnitude hash <= 8.
Proof.
  intros Hh.
  assert (H : forallb (fun h =>
                (grad1_factor h =? grad1_sign h * grad1_magnitude h)
                && (1 <=? grad1_magnitude h) && (grad1_magnitude h <=? 8))
              (upto 256) = true) by (vm_compute; reflexivity).
  pose proof (forallb_upto _ _ H hash Hh) as Hb. cbv beta in Hb. lia.
Qed.

Lemma grad1_factor_small (hash : Z) :
  is_uint8 hash -> - 8 <= grad1_factor hash <= 8.
Proof.
  intros Hh. destruct (grad1_factor_spec hash Hh) as [E Hm].
  rewrite E. unfold grad1_sign. destruct (Z.testbit hash 3); lia.
Qed.

(** Negating the argument of a wrapping product negates the product, also
    at the minimum of the type, where negation returns its argument. *)
Lemma mul32_neg_neg (c x : Z) : mul32 c x = neg32 (mul32 c (neg32 x)).
Proof.
  unfold mul32, neg32.
  destruct (int32_eqm (- x)) as [k1 E1]. rewrite E1.
  destruct (int32_eqm (c * (- x + k1 * 2 ^ 32))) as [k2 E2]. rewrite E2.
  replace (- (c * (- x + k1 * 2 ^ 32) + k2 * 2 ^ 32))
    with (c * x + (- (c * k1) - k2) * 2 ^ 32) by ring.
  now rewrite int32_shift.
Qed.

(** C7. For every hash byte and every [int32] x, [grad1] returns the
    wrapping product of x with a signed magnitude: the magnitude
    [1 + (hash & 7)] lies in 1..8, the sign is -1 exactly when bit 3 of the
    hash is set, and the result is that one multiplication, with no
    division. *)
Theorem grad1_is_signed_multiple (hash x : Z) :
  is_uint8 hash -> is_int32 x ->
  let m := grad1_magnitude hash in
  let s := grad1_sign hash in
  1 <= m <= 8 /\
  (s = if negb (Z.land hash 8 =? 0) then -1 else 1) /\
  grad1 hash x = mul32 (mul32 s m) x /\
  grad1 hash x = int32 (s * m * x).
Proof.
  intros Hh Hx m s. subst m s.
  destruct (grad1_factor_spec hash Hh) as [E Hm].
  assert (Hs : - 1 <= grad1_sign hash <= 1)
    by (unfold grad1_sign; destruct (Z.testbit hash 3); lia).
  split; [exact Hm |]. split.
  - assert (H : forallb (fun h =>
                  grad1_sign h =? (if negb (Z.land h 8 =? 0) then -1 else 1))
                (upto 256) = true) by (vm_compute; reflexivity).
    apply Z.eqb_eq. exact (forallb_upto _ _ H hash Hh).
  - rewrite grad1_unfold, E. split; [| reflexivity].
    f_equal. unfold mul32. symmetry. apply int32_id. unfold is_int32. nia.
Qed.

Lemma grad1_is_signed_multiple_witness :
  grad1 11 5 = int32 (-1 * 4 * 5) /\ grad1 0xff (- 2 ^ 31) = int32 (-1 * 8 * (- 2 ^ 31)).
Proof.
  split.
  - apply (grad1_is_signed_multiple 11 5); unfold is_uint8, is_int32; lia.
  - apply (grad1_is_signed_multiple 0xff (- 2 ^ 31)); unfold is_uint8, is_int32; lia.
Defined.

(** C8. For every hash byte and every [int32] x,
    [grad1(hash, x) == -grad1(hash, -x)], both negations and the product
    wrapping in two's complement. *)
Theorem grad1_odd (hash x : Z) :
  is_uint8 hash -> is_int32 x ->
  grad1 hash x = neg32 (grad1 hash (neg32 x)).
Proof.
  intros _ _. rewrite !grad1_unfold. apply mul32_neg_neg.
Qed.

Lemma grad1_odd_witness :
  grad1 0x9c (- 2 ^ 31) = neg32 (grad1 0x9c (neg32 (- 2 ^ 31))) /\
  grad1 3 1234 = neg32 (grad1 3 (neg32 1234)).
Proof.
  split.
  - apply grad1_odd; unfold is_uint8, is_int32; lia.
  - apply grad1_odd; unfold is_uint8, is_int32; lia.
Defined.

(** ** [Noise1] *)

Lemma N1_x0_range (x : Z) : 0 <= N1.x0 x <= 4095.
Proof.
  unfold N1.x0. rewrite land_0xfff.
  pose proof (Z.mod_pos_bound x 4096). lia.
Qed.

Lemma N1_x1_exact (x : Z) : N1.x1 x = N1.x0 x - 0x1000.
Proof.
  unfold N1.x1, sub32. apply int32_id.
  pose proof (N1_x0_range x). unfold is_int32. lia.
Qed.

(** [0x8000 - (a*a)>>9] for an offset of at most one lattice unit. *)
Lemma falloff1_exact (a : Z) :
  - 4096 <= a <= 4096 ->
  sub32 0x8000 (shr (mul32 a a) 9) = 0x8000 - Z.shiftr (a * a) 9 /\
  0 <= 0x8000 - Z.shiftr (a * a) 9 <= 0x8000.
Proof.
  intros Ha.
  assert (Hsq : 0 <= a * a <= 16777216) by nia.
  assert (Hq : 0 <= Z.shiftr (a * a) 9 <= 32768).
  { rewrite Z.shiftr_div_pow2 by lia. change (2 ^ 9) with 512. split.
    - apply Z.div_pos; lia.
    - apply Z.div_le_upper_bound; lia. }
  unfold sub32, mul32, shr.
  rewrite (int32_id (a * a)) by (unfold is_int32; lia).
  rewrite int32_id by (unfold is_int32; lia). lia.
Qed.

(** C6. For every [int32] x, with [x0 = x & 0xfff] and [x1 = x0 - 0x1000],
    both falloff bases [0x8000 - (x0*x0)>>9] and [0x8000 - (x1*x1)>>9] are
    non-negative, and the [int32] operations that compute them are exact
    (nothing wraps), so no clamping branch is needed. *)
Theorem Noise1_falloff_nonneg (x : Z) :
  is_int32 x ->
  let x0 := Z.land x 0xfff in
  let x1 := x0 - 0x1000 in
  N1.x0 x = x0 /\ N1.x1 x = x1 /\
  N1.t0 x = 0x8000 - Z.shiftr (x0 * x0) 9 /\ 0 <= N1.t0 x /\
  N1.t1 x = 0x8000 - Z.shiftr (x1 * x1) 9 /\ 0 <= N1.t1 x.
Proof.
  intros _ x0 x1. subst x0 x1.
  pose proof (N1_x0_range x) as H0. pose proof (N1_x1_exact x) as E1.
  change (Z.land x 0xfff) with (N1.x0 x).
  destruct (falloff1_exact (N1.x0 x)) as [Et0 Ht0]; [lia |].
  destruct (falloff1_exact (N1.x0 x - 0x1000)) as [Et1 Ht1]; [lia |].
  unfold N1.t0, N1.t1. rewrite E1, Et0, Et1.
  repeat split; lia.
Qed.

Lemma Noise1_falloff_nonneg_witness :
  0 <= N1.t0 (- 2 ^ 31) /\ 0 <= N1.t1 (- 2 ^ 31) /\
  0 <= N1.t0 4095 /\ 0 <= N1.t1 4095.
Proof.
  assert (H1 : is_int32 (- 2 ^ 31)) by (unfold is_int32; lia).
  assert (H2 : is_int32 4095) by (unfold is_int32; lia).
  pose proof (Noise1_falloff_nonneg (- 2 ^ 31) H1) as A.
  pose proof (Noise1_falloff_nonneg 4095 H2) as B.
  cbv zeta in A, B.
  repeat split; [apply A | apply A | apply B | apply B].
Defined.

(** Adding [1<<20] (with wrap-around) moves the input by a multiple of 4096
    lattice-fraction steps and the lattice index by a multiple of 256. *)
Lemma add_period_eqm (x : Z) :
  exists m, add32 x 1048576 = x + (256 + m * 1048576) * 4096.
Proof.
  unfold add32. destruct (int32_eqm (x + 1048576)) as [k E].
  exists k. rewrite E. change (2 ^ 32) with 4294967296. ring.
Qed.

Lemma N1_x0_periodic (x : Z) : N1.x0 (add32 x 1048576) = N1.x0 x.
Proof.
  destruct (add_period_eqm x) as [m E]. unfold N1.x0. rewrite E, !land_0xfff.
  apply Z_mod_plus_full.
Qed.

Lemma N1_i0_eqm (x : Z) :
  exists m, N1.i0 (add32 x 1048576) = N1.i0 x + m * 256.
Proof.
  destruct (add_period_eqm x) as [m E]. unfold N1.i0. rewrite E.
  rewrite !shr_div by lia. change (2 ^ 12) with 4096.
  rewrite Z_div_plus_full by lia.
  exists (1 + m * 4096). ring.
Qed.

Lemma N1_i0_periodic (x : Z) :
  Z.land (N1.i0 (add32 x 1048576)) 0xff = Z.land (N1.i0 x) 0xff.
Proof.
  destruct (N1_i0_eqm x) as [m E]. rewrite E, !land_0xff.
  apply Z_mod_plus_full.
Qed.

Lemma N1_i1_periodic (x : Z) :
  Z.land (N1.i1 (add32 x 1048576)) 0xff = Z.land (N1.i1 x) 0xff.
Proof.
  destruct (N1_i0_eqm x) as [m E]. unfold N1.i1. rewrite E. unfold add32.
  destruct (int32_eqm (N1.i0 x + m * 256 + 1)) as [k1 E1].
  destruct (int32_eqm (N1.i0 x + 1)) as [k2 E2].
  rewrite E1, E2, !land_0xff. change (2 ^ 32) with 4294967296.
  replace (N1.i0 x + m * 256 + 1 + k1 * 4294967296)
    with (N1.i0 x + 1 + (m + k1 * 16777216) * 256) by ring.
  replace (N1.i0 x + 1 + k2 * 4294967296)
    with (N1.i0 x + 1 + (k2 * 16777216) * 256) by ring.
  now rewrite !Z_mod_plus_full.
Qed.

(** C10. [Noise1] has period [1<<20] in its Q19.12 argument (256 lattice
    units): for every [int32] x, [Noise1(x + 1048576) == Noise1(x)] with the
    sum wrapping in [int32]; the lattice index is used only through
    [perm[i & 0xff]] and the fractional part [x & 0xfff] does not change. *)
Theorem Noise1_periodic (x : Z) :
  is_int32 x -> Noise1 (add32 x 1048576) = Noise1 x.
Proof.
  intros _.
  unfold Noise1, N1.n0, N1.n1, N1.t0_4, N1.t1_4, N1.t0_sq, N1.t1_sq,
    N1.t0, N1.t1, N1.x1.
  now rewrite N1_x0_periodic, N1_i0_periodic, N1_i1_periodic.
Qed.

Lemma Noise1_periodic_witness :
  Noise1 (add32 (2 ^ 31 - 5) 1048576) = Noise1 (2 ^ 31 - 5) /\
  Noise1 (add32 (- 1234567) 1048576) = Noise1 (- 1234567).
Proof.
  split; apply Noise1_periodic; unfold is_int32; lia.
Defined.

(** C9. At the origin each evaluator returns a value close to the Q0.15
    zero: [Noise1(0)] is 1019 and [Noise2(0,0)], [Noise3(0,0,0)] are 0, all
    within 2048 of zero. *)
Theorem noise_at_origin :
  exists r1 r2 r3,
    Noise1 0 = Some r1 /\ Noise2 0 0 = Some r2 /\ Noise3 0 0 0 = Some r3 /\
    Z.abs r1 <= 2048 /\ Z.abs r2 <= 2048 /\ Z.abs r3 <= 2048 /\
    r1 = 1019 /\ r2 = 0 /\ r3 = 0.
Proof.
  exists 1019, 0, 0.
  split; [vm_compute; reflexivity |].
  split; [vm_compute; reflexivity |].
  split; [vm_compute; reflexivity |].
  repeat split; lia.
Qed.

(** ** Totality *)

Lemma div32_some (a b : Z) : b <> 0 -> exists n, div32 a b = Some n.
Proof.
  intros Hb. unfold div32. destruct (Z.eqb_spec b 0); [contradiction | eauto].
Qed.

Lemma corner_some (t : Z) (g : option Z) :
  (exists v, g = Some v) -> exists n, corner t g = Some n.
Proof.
  intros [v ->]. unfold corner. destruct (0 <? t); eauto.
Qed.

Lemma N1_n0_some (x : Z) : exists n, N1.n0 x = Some n.
Proof.
  unfold N1.n0. destruct (perm_at_masked (N1.i0 x)) as (h & -> & _). eauto.
Qed.

Lemma N1_n1_some (x : Z) : exists n, N1.n1 x = Some n.
Proof.
  unfold N1.n1. destruct (perm_at_masked (N1.i1 x)) as (h & -> & _). eauto.
Qed.

Lemma N1_finish_some (a b : Z) : exists r, N1.finish a b = Some r /\ is_int16 r.
Proof.
  unfold N1.finish. cbv zeta.
  destruct (div32_some (shl32 (add32 (add32 a b) 2503) 14) 40225) as [n ->];
    [lia |].
  eexists. split; [reflexivity | apply int16_range].
Qed.


Lemma N2_g_some (x y : Z) :
  (exists v, N2.g0 x y = Some v) /\ (exists v, N2.g1 x y = Some v) /\
  (exists v, N2.g2 x y = Some v).
Proof.
  unfold N2.g0, N2.g1, N2.g2. repeat split; lookup_masked; eauto.
Qed.

Lemma N3_hash_some (x y z : Z) : exists h, N3.hash x y z = Some h.
Proof. unfold N3.hash. lookup_masked. eauto. Qed.

Lemma N3_g_some (x y z : Z) :
  (exists v, N3.g0 x y z = Some v) /\ (exists v, N3.g1 x y z = Some v) /\
  (exists v, N3.g2 x y z = Some v) /\ (exists v, N3.g3 x y z = Some v).
Proof.
  unfold N3.g0, N3.g1, N3.g2, N3.g3.
  repeat split;
    match goal with
    | |- context [N3.hash ?a ?b ?c] =>
        destruct (N3_hash_some a b c) as [h ->]
    end; eauto.
Qed.

Lemma Noise1_some (x : Z) : exists r, Noise1 x = Some r /\ is_int16 r.
Proof.
  unfold Noise1.
  destruct (N1_n0_some x) as [a ->]. destruct (N1_n1_some x) as [b ->].
  apply N1_finish_some.
Qed.

Lemma Noise2_some (x y : Z) : exists r, Noise2 x y = Some r /\ is_int16 r.
Proof.
  unfold Noise2, N2.n0, N2.n1, N2.n2.
  destruct (N2_g_some x y) as (H0 & H1 & H2).
  destruct (corner_some (N2.t0 x y) _ H0) as [a ->].
  destruct (corner_some (N2.t1 x y) _ H1) as [b ->].
  destruct (corner_some (N2.t2 x y) _ H2) as [c ->].
  unfold N2.finish. cbv zeta.
  destruct (div32_some (shl32 (add32 (add32 a b) c) 6) 46360) as [n ->];
    [lia |].
  eexists. split; [reflexivity | apply int16_range].
Qed.

Lemma Noise3_some (x y z : Z) : exists r, Noise3 x y z = Some r /\ is_int16 r.
Proof.
  unfold Noise3, N3.n0, N3.n1, N3.n2, N3.n3.
  destruct (N3_g_some x y z) as (H0 & H1 & H2 & H3).
  destruct (corner_some (N3.t0 x y z) _ H0) as [a ->].
  destruct (corner_some (N3.t1 x y z) _ H1) as [b ->].
  destruct (corner_some (N3.t2 x y z) _ H2) as [c ->].
  destruct (corner_some (N3.t3 x y z) _ H3) as [d ->].
  unfold N3.finish. cbv zeta.
  destruct (div32_some (shl32 (add32 (add32 (add32 a b) c) d) 6) 64120)
    as [n ->]; [lia |].
  eexists. split; [reflexivity | apply int16_range].
Qed.

(** C4. On the whole [int32] domain each of [Noise1], [Noise2] and [Noise3]
    returns an [int16]: a table index masked with [& 0xff] lies in 0..255
    whatever its sign, so every lookup succeeds, and the three divisors
    40225, 46360 and 64120 are not zero. *)
Theorem noise_total (x y z : Z) :
  is_int32 x -> is_int32 y -> is_int32 z ->
  (exists r, Noise1 x = Some r /\ is_int16 r) /\
  (exists r, Noise2 x y = Some r /\ is_int16 r) /\
  (exists r, Noise3 x y z = Some r /\ is_int16 r) /\
  (forall idx, 0 <= Z.land idx 0xff < 256 /\
               exists h, perm_at (Z.land idx 0xff) = Some h) /\
  (forall a, div32 a 40225 <> None /\ div32 a 46360 <> None /\
             div32 a 64120 <> None).
Proof.
  intros _ _ _.
  split; [apply Noise1_some |].
  split; [apply Noise2_some |].
  split; [apply Noise3_some |].
  split.
  - intros idx. split; [apply land_0xff_range |].
    destruct (perm_at_masked idx) as (h & E & _). eauto.
  - intros a. unfold div32. cbn. repeat split; discriminate.
Qed.

Lemma noise_total_witness :
  (exists r, Noise1 (- 2 ^ 31) = Some r /\ is_int16 r) /\
  (exists r, Noise2 (- 2 ^ 31) (2 ^ 31 - 1) = Some r /\ is_int16 r) /\
  (exists r, Noise3 (- 2 ^ 31) (2 ^ 31 - 1) (- 1) = Some r /\ is_int16 r).
Proof.
  assert (H1 : is_int32 (- 2 ^ 31)) by (unfold is_int32; lia).
  assert (H2 : is_int32 (2 ^ 31 - 1)) by (unfold is_int32; lia).
  assert (H3 : is_int32 (- 1)) by (unfold is_int32; lia).
  pose proof (noise_total (- 2 ^ 31) (2 ^ 31 - 1) (- 1) H1 H2 H3)
    as (A & B & C & _).
  exact (conj A (conj B C)).
Defined.

(** ** The final scaling of [Noise1] *)

Lemma sq15_exact (t : Z) :
  0 <= t <= 32768 ->
  shr (mul32 t t) 15 = Z.shiftr (t * t) 15 /\
  0 <= Z.shiftr (t * t) 15 <= 32768.
Proof.
  intros Ht. unfold mul32, shr.
  rewrite int32_id by (unfold is_int32; nia).
  split; [reflexivity |].
  rewrite Z.shiftr_div_pow2 by lia. change (2 ^ 15) with 32768. split.
  - apply Z.div_pos; nia.
  - apply Z.div_le_upper_bound; nia.
Qed.

(** The three [int32] steps that raise a falloff base to its fourth power
    are exact, and the power stays in [0, 0x8000]. *)
Lemma falloff4_exact (a : Z) :
  - 4096 <= a <= 4096 ->
  let t := sub32 0x8000 (shr (mul32 a a) 9) in
  let t2 := shr (mul32 t t) 15 in
  shr (mul32 t2 t2) 15 = falloff4 a /\ 0 <= falloff4 a <= 32768.
Proof.
  intros Ha t t2. subst t t2. unfold falloff4. cbv zeta.
  destruct (falloff1_exact a Ha) as [E H]. rewrite E.
  change 0x8000 with 32768 in *.
  destruct (sq15_exact (32768 - Z.shiftr (a * a) 9) H) as [E2 H2]. rewrite E2.
  exact (sq15_exact _ H2).
Qed.

Lemma N1_t0_4_exact (x : Z) :
  N1.t0_4 x = falloff4 (N1.x0 x) /\ 0 <= falloff4 (N1.x0 x) <= 32768.
Proof.
  pose proof (N1_x0_range x) as H0.
  unfold N1.t0_4, N1.t0_sq, N1.t0.
  apply (falloff4_exact (N1.x0 x)). lia.
Qed.

Lemma N1_t1_4_exact (x : Z) :
  N1.t1_4 x = falloff4 (N1.x0 x - 0x1000) /\
  0 <= falloff4 (N1.x0 x - 0x1000) <= 32768.
Proof.
  pose proof (N1_x0_range x) as H0.
  unfold N1.t1_4, N1.t1_sq, N1.t1. rewrite N1_x1_exact.
  apply (falloff4_exact (N1.x0 x - 0x1000)). lia.
Qed.

(** [(t * grad1(h, a)) >> 12] lies between the shifts of [-(t * 8|a|)] and
    [t * 8|a|]; none of the [int32] products wraps. *)
Lemma contribution_bounds (t h a b : Z) :
  0 <= t <= 32768 -> is_uint8 h -> 0 <= b <= 4096 -> - b <= a <= b ->
  shr (- (t * (8 * b))) 12 <= shr (mul32 t (grad1 h a)) 12 <= shr (t * (8 * b)) 12.
Proof.
  intros Ht Hh Hb Ha.
  pose proof (grad1_factor_small h Hh) as Hc.
  rewrite grad1_unfold. set (c := grad1_factor h) in *.
  assert (HP : - (8 * b) <= c * a <= 8 * b) by nia.
  assert (HT : - (t * (8 * b)) <= t * (c * a) <= t * (8 * b)) by nia.
  assert (HB : 0 <= t * (8 * b) <= 32768 * 32768) by nia.
  assert (E : mul32 t (mul32 c a) = t * (c * a)).
  { unfold mul32. rewrite (int32_id (c * a)) by (unfold is_int32; lia).
    apply int32_id. unfold is_int32. lia. }
  rewrite E, !shr_div by lia. change (2 ^ 12) with 4096.
  split; apply Z.div_le_mono; lia.
Qed.

Lemma N1_n0_bounds (x n : Z) :
  N1.n0 x = Some n ->
  shr (- N1_mag0 (N1.x0 x)) 12 <= n <= shr (N1_mag0 (N1.x0 x)) 12.
Proof.
  unfold N1.n0, N1_mag0.
  destruct (perm_at_masked (N1.i0 x)) as (h & -> & Hh). intros [= <-].
  pose proof (N1_x0_range x).
  destruct (N1_t0_4_exact x) as [-> Ht].
  apply contribution_bounds; [exact Ht | exact Hh | lia | lia].
Qed.

Lemma N1_n1_bounds (x n : Z) :
  N1.n1 x = Some n ->
  shr (- N1_mag1 (N1.x0 x)) 12 <= n <= shr (N1_mag1 (N1.x0 x)) 12.
Proof.
  unfold N1.n1, N1_mag1.
  destruct (perm_at_masked (N1.i1 x)) as (h & -> & Hh). intros [= <-].
  pose proof (N1_x0_range x).
  destruct (N1_t1_4_exact x) as [-> Ht]. rewrite N1_x1_exact.
  apply contribution_bounds; [exact Ht | exact Hh | lia | lia].
Qed.

Lemma N1_sum_fits_unfold (x0 : Z) :
  N1_sum_fits x0 =
  (shr (N1_mag0 x0) 12 + shr (N1_mag1 x0) 12 + 2503 <? 131072)
  && (- 131072 <? shr (- N1_mag0 x0) 12 + shr (- N1_mag1 x0) 12 + 2503).
Proof. reflexivity. Qed.

(** The bound holds for each of the 4096 fractional offsets. *)
Lemma N1_sum_fits_all (x0 : Z) : 0 <= x0 <= 4095 -> N1_sum_fits x0 = true.
Proof.
  intros H0.
  assert (H : forallb N1_sum_fits (upto 4096) = true)
    by (vm_compute; reflexivity).
  apply (forallb_upto _ _ H). lia.
Qed.

Lemma quot_small (m d : Z) :
  0 < d -> is_int32 m -> is_int32 (Z.quot m d).
Proof.
  intros Hd Hm. unfold is_int32 in *.
  pose proof (Z.quot_rem' m d) as E.
  destruct (Z.le_gt_cases 0 m) as [Hp | Hn].
  - pose proof (Z.rem_bound_pos m d Hp Hd). nia.
  - pose proof (Z.rem_bound_pos_neg m d Hd ltac:(lia)). nia.
Qed.

(** The biased sum of the two contributions stays inside [-2^17, 2^17]. *)
Lemma N1_biased_sum_range (x a b : Z) :
  N1.n0 x = Some a -> N1.n1 x = Some b ->
  - 131072 < a + b + 2503 < 131072.
Proof.
  intros Ea Eb.
  pose proof (N1_n0_bounds x a Ea) as Ha.
  pose proof (N1_n1_bounds x b Eb) as Hb.
  pose proof (N1_sum_fits_all (N1.x0 x) (N1_x0_range x)) as Hf.
  rewrite N1_sum_fits_unfold in Hf.
  apply andb_true_iff in Hf. destruct Hf as [Hhi Hlo].
  apply Z.ltb_lt in Hhi, Hlo. lia.
Qed.

Lemma N1_shift_exact (a b : Z) :
  - 131072 < a + b + 2503 < 131072 ->
  shl32 (add32 (add32 a b) 2503) 14 = (a + b + 2503) * 16384.
Proof.
  intros Hs. unfold shl32, add32.
  rewrite (int32_id (a + b)) by (unfold is_int32; lia).
  rewrite (int32_id (a + b + 2503)) by (unfold is_int32; lia).
  rewrite Z.shiftl_mul_pow2 by lia. change (2 ^ 14) with 16384.
  apply int32_id. unfold is_int32. lia.
Qed.

Lemma N1_finish_exact (a b : Z) :
  - 131072 < a + b + 2503 < 131072 ->
  N1.finish a b = Some (int16 (Z.quot ((a + b + 2503) * 16384) 40225)).
Proof.
  intros Hs. unfold N1.finish. cbv zeta.
  rewrite (N1_shift_exact a b Hs). unfold div32.
  change (40225 =? 0) with false. cbv iota.
  rewrite int32_id; [reflexivity |].
  apply quot_small; [lia |]. unfold is_int32. lia.
Qed.

(** C5. The result of [Noise1] is obtained from the sum [n0 + n1] of the two
    corner contributions by adding the bias 2503, multiplying by 16384 (the
    left shift by 14, which does not overflow), dividing by 40225 with
    truncation towards zero, and truncating the quotient to [int16];
    nothing else is applied. *)
Theorem Noise1_final_scaling (x : Z) :
  is_int32 x ->
  exists n0 n1,
    N1.n0 x = Some n0 /\ N1.n1 x = Some n1 /\
    shl32 (add32 (add32 n0 n1) 2503) 14 = (n0 + n1 + 2503) * 16384 /\
    Noise1 x = Some (int16 (Z.quot ((n0 + n1 + 2503) * 16384) 40225)).
Proof.
  intros _.
  destruct (N1_n0_some x) as [a Ea]. destruct (N1_n1_some x) as [b Eb].
  exists a, b.
  pose proof (N1_biased_sum_range x a b Ea Eb) as Hs.
  split; [exact Ea |]. split; [exact Eb |].
  split; [exact (N1_shift_exact a b Hs) |].
  unfold Noise1. rewrite Ea, Eb. exact (N1_finish_exact a b Hs).
Qed.

Lemma Noise1_final_scaling_witness :
  exists n0 n1,
    N1.n0 2048 = Some n0 /\ N1.n1 2048 = Some n1 /\
    shl32 (add32 (add32 n0 n1) 2503) 14 = (n0 + n1 + 2503) * 16384 /\
    Noise1 2048 = Some (int16 (Z.quot ((n0 + n1 + 2503) * 16384) 40225)).
Proof.
  apply Noise1_final_scaling. unfold is_int32. lia.
Defined.

(** ** Corner gating in [Noise2] and [Noise3] *)

Lemma corner_gate (t : Z) (g : option Z) : t <= 0 -> corner t g = Some 0.
Proof.
  intros Ht. unfold corner. destruct (Z.ltb_spec 0 t); [lia | reflexivity].
Qed.

(** C3. In [Noise2] and [Noise3] a corner whose falloff value [t], as the
    code computes it, is at most zero contributes exactly 0: its [n] keeps
    the initial 0, and the result does not depend on what the table lookups
    and the gradient call of that corner would have delivered. *)
Theorem corner_gating (x y z : Z) :
  is_int32 x -> is_int32 y -> is_int32 z ->
  (N2.t0 x y <= 0 ->
     N2.n0 x y = Some 0 /\
     forall g, Noise2_with g (N2.g1 x y) (N2.g2 x y) x y = Noise2 x y) /\
  (N2.t1 x y <= 0 ->
     N2.n1 x y = Some 0 /\
     forall g, Noise2_with (N2.g0 x y) g (N2.g2 x y) x y = Noise2 x y) /\
  (N2.t2 x y <= 0 ->
     N2.n2 x y = Some 0 /\
     forall g, Noise2_with (N2.g0 x y) (N2.g1 x y) g x y = Noise2 x y) /\
  (N3.t0 x y z <= 0 ->
     N3.n0 x y z = Some 0 /\
     forall g, Noise3_with g (N3.g1 x y z) (N3.g2 x y z) (N3.g3 x y z) x y z
               = Noise3 x y z) /\
  (N3.t1 x y z <= 0 ->
     N3.n1 x y z = Some 0 /\
     forall g, Noise3_with (N3.g0 x y z) g (N3.g2 x y z) (N3.g3 x y z) x y z
               = Noise3 x y z) /\
  (N3.t2 x y z <= 0 ->
     N3.n2 x y z = Some 0 /\
     forall g, Noise3_with (N3.g0 x y z) (N3.g1 x y z) g (N3.g3 x y z) x y z
               = Noise3 x y z) /\
  (N3.t3 x y z <= 0 ->
     N3.n3 x y z = Some 0 /\
     forall g, Noise3_with (N3.g0 x y z) (N3.g1 x y z) (N3.g2 x y z) g x y z
               = Noise3 x y z).
Proof.
  intros _ _ _.
  unfold Noise2_with, Noise3_with, Noise2, Noise3,
    N2.n0, N2.n1, N2.n2, N3.n0, N3.n1, N3.n2, N3.n3.
  generalize (N2.t0 x y) (N2.t1 x y) (N2.t2 x y)
    (N2.g0 x y) (N2.g1 x y) (N2.g2 x y).
  generalize (N3.t0 x y z) (N3.t1 x y z) (N3.t2 x y z) (N3.t3 x y z)
    (N3.g0 x y z) (N3.g1 x y z) (N3.g2 x y z) (N3.g3 x y z).
  intros u0 u1 u2 u3 h0 h1 h2 h3 t0 t1 t2 g0 g1 g2.
  split; [| split; [| split; [| split; [| split; [| split]]]]];
    intros Ht; (split; [| intros g]);
    rewrite !(corner_gate _ _ Ht); reflexivity.
Qed.

Lemma corner_gating_witness :
  (N2.n0 2300 2300 = Some 0 /\ N2.n1 0 0 = Some 0 /\ N2.n2 0 0 = Some 0) /\
  (N3.n0 2000 2000 2000 = Some 0 /\ N3.n1 2000 2000 2000 = Some 0 /\
   N3.n2 2000 2000 2000 = Some 0 /\ N3.n3 0 0 0 = Some 0).
Proof.
  assert (I0 : is_int32 0) by (unfold is_int32; lia).
  assert (I1 : is_int32 2300) by (unfold is_int32; lia).
  assert (I2 : is_int32 2000) by (unfold is_int32; lia).
  assert (T20 : N2.t0 2300 2300 <= 0) by (vm_compute; discriminate).
  assert (T21 : N2.t1 0 0 <= 0) by (vm_compute; discriminate).
  assert (T22 : N2.t2 0 0 <= 0) by (vm_compute; discriminate).
  assert (T30 : N3.t0 2000 2000 2000 <= 0) by (vm_compute; discriminate).
  assert (T31 : N3.t1 2000 2000 2000 <= 0) by (vm_compute; discriminate).
  assert (T32 : N3.t2 2000 2000 2000 <= 0) by (vm_compute; discriminate).
  assert (T33 : N3.t3 0 0 0 <= 0) by (vm_compute; discriminate).
  pose proof (corner_gating 2300 2300 0 I1 I1 I0) as (A0 & _).
  pose proof (corner_gating 0 0 0 I0 I0 I0) as (_ & A1 & A2 & _ & _ & _ & B3).
  pose proof (corner_gating 2000 2000 2000 I2 I2 I2)
    as (_ & _ & _ & B0 & B1 & B2 & _).
  exact (conj (conj (proj1 (A0 T20)) (conj (proj1 (A1 T21)) (proj1 (A2 T22))))
              (conj (proj1 (B0 T30))
                 (conj (proj1 (B1 T31))
                    (conj (proj1 (B2 T32)) (proj1 (B3 T33)))))).
Defined.

(** ** The corner order of [Noise3] *)

Lemma order_cases (a b c : Z) :
  (a >= b -> b >= c -> N3.order a b c = ((1, 0, 0), (1, 1, 0))) /\
  (a >= b -> b < c -> a >= c -> N3.order a b c = ((1, 0, 0), (1, 0, 1))) /\
  (a >= b -> b < c -> a < c -> N3.order a b c = ((0, 0, 1), (1, 0, 1))) /\
  (a < b -> b < c -> N3.order a b c = ((0, 0, 1), (0, 1, 1))) /\
  (a < b -> b >= c -> a < c -> N3.order a b c = ((0, 1, 0), (0, 1, 1))) /\
  (a < b -> b >= c -> a >= c -> N3.order a b c = ((0, 1, 0), (1, 1, 0))).
Proof.
  unfold N3.order.
  destruct (Z.leb_spec b a), (Z.leb_spec c b), (Z.leb_spec c a),
    (Z.ltb_spec b c), (Z.ltb_spec a c);
    repeat split; intros; try reflexivity; lia.
Qed.

(** C2. In [Noise3] the offsets [(i1,j1,k1)] and [(i2,j2,k2)] of the second
    and third corner follow from the six-way comparison of the unskewed
    offsets [x0], [y0], [z0], ties included:
    - [x0 >= y0], [y0 >= z0]: X Y Z order, (1,0,0) and (1,1,0);
    - [x0 >= y0], [y0 < z0], [x0 >= z0]: X Z Y order, (1,0,0) and (1,0,1);
    - [x0 >= y0], [y0 < z0], [x0 < z0]: Z X Y order, (0,0,1) and (1,0,1);
    - [x0 < y0], [y0 < z0]: Z Y X order, (0,0,1) and (0,1,1);
    - [x0 < y0], [y0 >= z0], [x0 < z0]: Y Z X order, (0,1,0) and (0,1,1);
    - [x0 < y0], [y0 >= z0], [x0 >= z0]: Y X Z order, (0,1,0) and (1,1,0). *)
Theorem Noise3_corner_order (x y z : Z) :
  is_int32 x -> is_int32 y -> is_int32 z ->
  let x0 := N3.x0 x y z in
  let y0 := N3.y0 x y z in
  let z0 := N3.z0 x y z in
  let c1 := (N3.i1 x y z, N3.j1 x y z, N3.k1 x y z) in
  let c2 := (N3.i2 x y z, N3.j2 x y z, N3.k2 x y z) in
  (x0 >= y0 -> y0 >= z0 -> c1 = (1, 0, 0) /\ c2 = (1, 1, 0)) /\
  (x0 >= y0 -> y0 < z0 -> x0 >= z0 -> c1 = (1, 0, 0) /\ c2 = (1, 0, 1)) /\
  (x0 >= y0 -> y0 < z0 -> x0 < z0 -> c1 = (0, 0, 1) /\ c2 = (1, 0, 1)) /\
  (x0 < y0 -> y0 < z0 -> c1 = (0, 0, 1) /\ c2 = (0, 1, 1)) /\
  (x0 < y0 -> y0 >= z0 -> x0 < z0 -> c1 = (0, 1, 0) /\ c2 = (0, 1, 1)) /\
  (x0 < y0 -> y0 >= z0 -> x0 >= z0 -> c1 = (0, 1, 0) /\ c2 = (1, 1, 0)).
Proof.
  intros _ _ _ x0 y0 z0 c1 c2. subst c1 c2.
  unfold N3.i1, N3.j1, N3.k1, N3.i2, N3.j2, N3.k2. fold x0 y0 z0.
  destruct (order_cases x0 y0 z0) as (H1 & H2 & H3 & H4 & H5 & H6).
  split; [intros; rewrite H1 by assumption; split; reflexivity |].
  split; [intros; rewrite H2 by assumption; split; reflexivity |].
  split; [intros; rewrite H3 by assumption; split; reflexivity |].
  split; [intros; rewrite H4 by assumption; split; reflexivity |].
  split; [intros; rewrite H5 by assumption; split; reflexivity |].
  intros; rewrite H6 by assumption; split; reflexivity.
Qed.

Lemma Noise3_corner_order_witness :
  (N3.i1 0 0 0, N3.j1 0 0 0, N3.k1 0 0 0) = (1, 0, 0) /\
  (N3.i2 300 100 200, N3.j2 300 100 200, N3.k2 300 100 200) = (1, 0, 1) /\
  (N3.i1 200 100 300, N3.j1 200 100 300, N3.k1 200 100 300) = (0, 0, 1) /\
  (N3.i2 100 200 300, N3.j2 100 200 300, N3.k2 100 200 300) = (0, 1, 1) /\
  (N3.i1 100 300 200, N3.j1 100 300 200, N3.k1 100 300 200) = (0, 1, 0) /\
  (N3.i2 200 300 100, N3.j2 200 300 100, N3.k2 200 300 100) = (1, 1, 0).
Proof.
  assert (I : forall v, - 1000 <= v <= 1000 -> is_int32 v)
    by (unfold is_int32; lia).
  assert (I0 : is_int32 0) by (apply I; lia).
  assert (I1 : is_int32 100) by (apply I; lia).
  assert (I2 : is_int32 200) by (apply I; lia).
  assert (I3 : is_int32 300) by (apply I; lia).
  pose proof (Noise3_corner_order 0 0 0 I0 I0 I0) as (A & _).
  pose proof (Noise3_corner_order 300 100 200 I3 I1 I2) as (_ & B & _).
  pose proof (Noise3_corner_order 200 100 300 I2 I1 I3) as (_ & _ & C & _).
  pose proof (Noise3_corner_order 100 200 300 I1 I2 I3)
    as (_ & _ & _ & D & _).
  pose proof (Noise3_corner_order 100 300 200 I1 I3 I2)
    as (_ & _ & _ & _ & E & _).
  pose proof (Noise3_corner_order 200 300 100 I2 I3 I1)
    as (_ & _ & _ & _ & _ & F).
  assert (A1 : N3.x0 0 0 0 >= N3.y0 0 0 0) by (vm_compute; discriminate).
  assert (A2 : N3.y0 0 0 0 >= N3.z0 0 0 0) by (vm_compute; discriminate).
  assert (B1 : N3.x0 300 100 200 >= N3.y0 300 100 200)
    by (vm_compute; discriminate).
  assert (B2 : N3.y0 300 100 200 < N3.z0 300 100 200)
    by (vm_compute; reflexivity).
  assert (B3 : N3.x0 300 100 200 >= N3.z0 300 100 200)
    by (vm_compute; discriminate).
  assert (C1 : N3.x0 200 100 300 >= N3.y0 200 100 300)
    by (vm_compute; discriminate).
  assert (C2 : N3.y0 200 100 300 < N3.z0 200 100 300)
    by (vm_compute; reflexivity).
  assert (C3 : N3.x0 200 100 300 < N3.z0 200 100 300)
    by (vm_compute; reflexivity).
  assert (D1 : N3.x0 100 200 300 < N3.y0 100 200 300)
    by (vm_compute; reflexivity).
  assert (D2 : N3.y0 100 200 300 < N3.z0 100 200 300)
    by (vm_compute; reflexivity).
  assert (E1 : N3.x0 100 300 200 < N3.y0 100 300 200)
    by (vm_compute; reflexivity).
  assert (E2 : N3.y0 100 300 200 >= N3.z0 100 300 200)
    by (vm_compute; discriminate).
  assert (E3 : N3.x0 100 300 200 < N3.z0 100 300 200)
    by (vm_compute; reflexivity).
  assert (F1 : N3.x0 200 300 100 < N3.y0 200 300 100)
    by (vm_compute; reflexivity).
  assert (F2 : N3.y0 200 300 100 >= N3.z0 200 300 100)
    by (vm_compute; discriminate).
  assert (F3 : N3.x0 200 300 100 >= N3.z0 200 300 100)
    by (vm_compute; discriminate).
  exact (conj (proj1 (A A1 A2))
           (conj (proj2 (B B1 B2 B3))
              (conj (proj1 (C C1 C2 C3))
                 (conj (proj2 (D D1 D2))
                    (conj (proj1 (E E1 E2 E3)) (proj2 (F F1 F2 F3))))))).
Defined.

(** * Further properties *)

(** ** Wrapping sums *)

Lemma int32_add_l (a b : Z) : int32 (int32 a + b) = int32 (a + b).
Proof.
  destruct (int32_eqm a) as [k ->].
  replace (a + k * 2 ^ 32 + b) with (a + b + k * 2 ^ 32) by ring.
  apply int32_shift.
Qed.

Lemma int32_add_r (a b : Z) : int32 (a + int32 b) = int32 (a + b).
Proof. rewrite Z.add_comm, int32_add_l. f_equal. ring. Qed.

Lemma int32_opp (a : Z) : int32 (- int32 a) = int32 (- a).
Proof.
  destruct (int32_eqm a) as [k ->].
  replace (- (a + k * 2 ^ 32)) with (- a + (- k) * 2 ^ 32) by ring.
  apply int32_shift.
Qed.

Lemma int32_mul_r (c a : Z) : int32 (c * int32 a) = int32 (c * a).
Proof.
  destruct (int32_eqm a) as [k ->].
  replace (c * (a + k * 2 ^ 32)) with (c * a + (c * k) * 2 ^ 32) by ring.
  apply int32_shift.
Qed.

(** ** [grad2] and [grad3] as dot products *)

Lemma land_7_cases (h : Z) :
  let k := Z.land h 7 in
  k = 0 \/ k = 1 \/ k = 2 \/ k = 3 \/ k = 4 \/ k = 5 \/ k = 6 \/ k = 7.
Proof.
  intros k. subst k. change 7 with (2 ^ 3 - 1). rewrite (land_mask h 3) by lia.
  pose proof (Z.mod_pos_bound h (2 ^ 3)). lia.
Qed.

Lemma land_15_cases (h : Z) :
  let k := Z.land h 15 in
  (k = 0 \/ k = 1 \/ k = 2 \/ k = 3) \/ (k = 4 \/ k = 5 \/ k = 6 \/ k = 7) \/
  (k = 8 \/ k = 9 \/ k = 10 \/ k = 11) \/
  (k = 12 \/ k = 13 \/ k = 14 \/ k = 15).
Proof.
  intros k. subst k. change 15 with (2 ^ 4 - 1). rewrite (land_mask h 4) by lia.
  pose proof (Z.mod_pos_bound h (2 ^ 4)). lia.
Qed.

(** Evaluates the tests on the (known) low bits of the hash and the
    table entry they select. *)
Ltac eval_closed t :=
  let v := eval vm_compute in t in change t with v.

Ltac eval_selectors :=
  repeat match goal with
    | |- context [Z.land ?a ?b =? ?c] => eval_closed (Z.land a b =? c)
    | |- context [?a <? ?b] => eval_closed (a <? b)
    | |- context [?a =? ?b] => eval_closed (a =? b)
    | |- context [fst (nth ?n ?l ?d)] => eval_closed (fst (nth n l d))
    | |- context [snd (nth ?n ?l ?d)] => eval_closed (snd (nth n l d))
    end;
  cbv [q negb orb fst snd].

(** Brings a sum of wrapped terms to a single wrapped polynomial. *)
Ltac wrap_normal :=
  unfold add32, neg32, mul32;
  rewrite ?int32_add_l, ?int32_add_r;
  f_equal; ring.

Lemma grad2_dot (hash x y : Z) :
  grad2 hash x y = int32 (fst (grad2_dir hash) * x + snd (grad2_dir hash) * y).
Proof.
  unfold grad2, grad2_dir. cbv zeta.
  destruct (land_7_cases hash) as [E | [E | [E | [E | [E | [E | [E | E]]]]]]];
    cbv zeta in E; rewrite E; eval_selectors; wrap_normal.
Qed.

Lemma grad3_dot (hash x y z : Z) :
  let '(a, b, c) := grad3_dir hash in
  grad3 hash x y z = int32 (a * x + b * y + c * z).
Proof.
  unfold grad3, grad3_dir. cbv zeta.
  destruct (land_15_cases hash)
    as [[E | [E | [E | E]]] | [[E | [E | [E | E]]] | [[E | [E | [E | E]]]
       | [E | [E | [E | E]]]]]];
    cbv zeta in E; rewrite E;
    match goal with
    | |- context [nth ?n ?l ?d] => eval_closed (nth n l d)
    end;
    cbv iota; eval_selectors; wrap_normal.
Qed.

(** X1. [grad2] is the wrapping dot product of [(x, y)] with one of eight
    directions selected by the low three bits of the hash; the directions
    are the eight distinct vectors with one coordinate of magnitude 1 and
    the other of magnitude 2. *)
Theorem grad2_is_dot_product (hash x y : Z) :
  is_uint8 hash -> is_int32 x -> is_int32 y ->
  let d := grad2_dir hash in
  grad2 hash x y = int32 (fst d * x + snd d * y) /\
  In d grad2_dirs /\
  (Z.abs (fst d) = 1 /\ Z.abs (snd d) = 2 \/
   Z.abs (fst d) = 2 /\ Z.abs (snd d) = 1) /\
  NoDup grad2_dirs /\ length grad2_dirs = 8%nat.
Proof.
  intros _ _ _ d. subst d. split; [apply grad2_dot |].
  assert (H : In (grad2_dir hash) grad2_dirs /\
              (Z.abs (fst (grad2_dir hash)) = 1 /\
               Z.abs (snd (grad2_dir hash)) = 2 \/
               Z.abs (fst (grad2_dir hash)) = 2 /\
               Z.abs (snd (grad2_dir hash)) = 1)).
  { unfold grad2_dir.
    destruct (land_7_cases hash) as [E | [E | [E | [E | [E | [E | [E | E]]]]]]];
      cbv zeta in E; rewrite E; vm_compute; intuition congruence. }
  destruct H as [H1 H2]. split; [exact H1 |]. split; [exact H2 |].
  split; [| reflexivity].
  unfold grad2_dirs.
  repeat (constructor; [simpl; intuition discriminate |]). constructor.
Qed.

Lemma grad2_is_dot_product_witness :
  grad2 0xfe (2 ^ 31 - 1) (- 2 ^ 31)
  = int32 (fst (grad2_dir 0xfe) * (2 ^ 31 - 1) + snd (grad2_dir 0xfe) * (- 2 ^ 31)).
Proof.
  apply (grad2_is_dot_product 0xfe (2 ^ 31 - 1) (- 2 ^ 31));
    unfold is_uint8, is_int32; lia.
Defined.

(** X2. [grad3] is the wrapping dot product of [(x, y, z)] with a direction
    selected by the low four bits of the hash.  Every direction is the
    midpoint of a cube edge (two coordinates of magnitude 1, one 0); the
    nibbles 0..11 give the twelve edges once each, and the nibbles 12, 13,
    14, 15 repeat the directions of the nibbles 0, 9, 1 and 11. *)
Theorem grad3_is_dot_product (hash x y z : Z) :
  is_uint8 hash -> is_int32 x -> is_int32 y -> is_int32 z ->
  let d := grad3_dir hash in
  (let '(a, b, c) := d in grad3 hash x y z = int32 (a * x + b * y + c * z)) /\
  is_cube_edge d /\
  NoDup (firstn 12 grad3_dirs) /\
  skipn 12 grad3_dirs = [grad3_dir 0; grad3_dir 9; grad3_dir 1; grad3_dir 11].
Proof.
  intros _ _ _ _ d. subst d. split; [apply grad3_dot |].
  split.
  - unfold grad3_dir.
    destruct (land_15_cases hash)
      as [[E | [E | [E | E]]] | [[E | [E | [E | E]]] | [[E | [E | [E | E]]]
         | [E | [E | [E | E]]]]]];
      cbv zeta in E; rewrite E; vm_compute; intuition congruence.
  - split; [| reflexivity].
    unfold grad3_dirs. cbn [firstn].
    repeat (constructor; [simpl; intuition discriminate |]). constructor.
Qed.

Lemma grad3_is_dot_product_witness :
  (let '(a, b, c) := grad3_dir 0x0e in
   grad3 0x0e 5 (- 2 ^ 31) 7 = int32 (a * 5 + b * (- 2 ^ 31) + c * 7)) /\
  is_cube_edge (grad3_dir 0x0e).
Proof.
  assert (H : is_uint8 0x0e /\ is_int32 5 /\ is_int32 (- 2 ^ 31) /\ is_int32 7)
    by (unfold is_uint8, is_int32; lia).
  destruct H as (H0 & H1 & H2 & H3).
  pose proof (grad3_is_dot_product 0x0e 5 (- 2 ^ 31) 7 H0 H1 H2 H3)
    as (A & B & _).
  exact (conj A B).
Defined.

(** X3. [grad2] and [grad3] are odd in their coordinates, as [grad1] is:
    negating every coordinate (with wrap-around) negates the result. *)
Theorem grad2_grad3_odd (hash x y z : Z) :
  is_uint8 hash -> is_int32 x -> is_int32 y -> is_int32 z ->
  grad2 hash (neg32 x) (neg32 y) = neg32 (grad2 hash x y) /\
  grad3 hash (neg32 x) (neg32 y) (neg32 z) = neg32 (grad3 hash x y z).
Proof.
  intros _ _ _ _.
  destruct (int32_eqm (- x)) as [kx Ex].
  destruct (int32_eqm (- y)) as [ky Ey].
  destruct (int32_eqm (- z)) as [kz Ez].
  split.
  - rewrite !grad2_dot. unfold neg32. rewrite Ex, Ey, int32_opp.
    destruct (grad2_dir hash) as [a b]. cbn [fst snd].
    replace (a * (- x + kx * 2 ^ 32) + b * (- y + ky * 2 ^ 32))
      with (- (a * x + b * y) + (a * kx + b * ky) * 2 ^ 32) by ring.
    apply int32_shift.
  - pose proof (grad3_dot hash x y z) as E.
    pose proof (grad3_dot hash (neg32 x) (neg32 y) (neg32 z)) as E'.
    destruct (grad3_dir hash) as [[a b] c]. rewrite E, E'.
    unfold neg32. rewrite Ex, Ey, Ez, int32_opp.
    replace (a * (- x + kx * 2 ^ 32) + b * (- y + ky * 2 ^ 32)
             + c * (- z + kz * 2 ^ 32))
      with (- (a * x + b * y + c * z) + (a * kx + b * ky + c * kz) * 2 ^ 32)
      by ring.
    apply int32_shift.
Qed.

Lemma grad2_grad3_odd_witness :
  grad2 0x35 (neg32 (- 2 ^ 31)) (neg32 77) = neg32 (grad2 0x35 (- 2 ^ 31) 77) /\
  grad3 0x35 (neg32 (- 2 ^ 31)) (neg32 77) (neg32 (-3))
  = neg32 (grad3 0x35 (- 2 ^ 31) 77 (-3)).
Proof.
  apply grad2_grad3_odd; unfold is_uint8, is_int32; lia.
Defined.

(** ** [Noise1] without wrap-around *)

Lemma perm_at_byte (i : Z) :
  perm_at (Z.land i 0xff) = Some (perm_byte i) /\ is_uint8 (perm_byte i).
Proof.
  destruct (perm_at_masked i) as (h & E & Hh).
  assert (h = perm_byte i); [| subst h; split; assumption].
  revert E. rewrite land_0xff. unfold perm_at, perm_byte.
  pose proof (Z.mod_pos_bound i 256 ltac:(lia)) as Hi.
  replace ((0 <=? i mod 256) && (i mod 256 <? 256)) with true by lia.
  intros E. apply (nth_error_nth perm _ 0) in E. now symmetry.
Qed.

Lemma perm_byte_shift (i m : Z) : perm_byte (i + m * 256) = perm_byte i.
Proof. unfold perm_byte. now rewrite Z_mod_plus_full. Qed.

Lemma perm_byte_i1 (x : Z) : perm_byte (N1.i1 x) = perm_byte (N1.i0 x + 1).
Proof.
  unfold N1.i1, add32. destruct (int32_eqm (N1.i0 x + 1)) as [k ->].
  change (2 ^ 32) with 4294967296.
  replace (k * 4294967296) with ((k * 16777216) * 256) by ring.
  apply perm_byte_shift.
Qed.

(** The product [t * grad1(h, a)] of a falloff power and a gradient is
    exact for offsets of at most one lattice unit. *)
Lemma contribution_exact (t h a : Z) :
  0 <= t <= 32768 -> is_uint8 h -> - 4096 <= a <= 4096 ->
  mul32 t (grad1 h a) = t * (grad1_factor h * a).
Proof.
  intros Ht Hh Ha.
  pose proof (grad1_factor_small h Hh) as Hc.
  rewrite grad1_unfold. set (c := grad1_factor h) in *.
  assert (HP : - 32768 <= c * a <= 32768) by nia.
  assert (HT : - (32768 * 32768) <= t * (c * a) <= 32768 * 32768) by nia.
  unfold mul32. rewrite (int32_id (c * a)) by (unfold is_int32; lia).
  apply int32_id. unfold is_int32. lia.
Qed.

Lemma N1_n0_exact (x : Z) :
  N1.n0 x = Some (Z.shiftr (falloff4 (N1.x0 x)
                            * (grad1_factor (perm_byte (N1.i0 x)) * N1.x0 x)) 12).
Proof.
  unfold N1.n0. destruct (perm_at_byte (N1.i0 x)) as [-> Hh].
  destruct (N1_t0_4_exact x) as [-> Ht]. pose proof (N1_x0_range x).
  rewrite contribution_exact by (assumption || lia). reflexivity.
Qed.

Lemma N1_n1_exact (x : Z) :
  N1.n1 x = Some (Z.shiftr (falloff4 (N1.x0 x - 0x1000)
                            * (grad1_factor (perm_byte (N1.i0 x + 1))
                               * (N1.x0 x - 0x1000))) 12).
Proof.
  unfold N1.n1. destruct (perm_at_byte (N1.i1 x)) as [-> Hh].
  rewrite perm_byte_i1 in *.
  destruct (N1_t1_4_exact x) as [-> Ht]. pose proof (N1_x0_range x).
  rewrite N1_x1_exact.
  rewrite contribution_exact by (assumption || lia). reflexivity.
Qed.

Lemma Noise1_exact_unfold (x : Z) :
  Noise1_exact x =
  Z.quot (N1_biased (falloff4 (N1.x0 x)) (falloff4 (N1.x0 x - 0x1000)) (N1.x0 x)
            (grad1_factor (perm_byte (N1.i0 x)))
            (grad1_factor (perm_byte (N1.i0 x + 1))) * 16384) 40225.
Proof. reflexivity. Qed.

(** All the [int32] operations of [Noise1] are exact. *)
Lemma Noise1_int32_exact (x : Z) : Noise1 x = Some (int16 (Noise1_exact x)).
Proof.
  pose proof (N1_biased_sum_range x _ _ (N1_n0_exact x) (N1_n1_exact x)) as Hs.
  unfold Noise1. rewrite N1_n0_exact, N1_n1_exact.
  rewrite (N1_finish_exact _ _ Hs), Noise1_exact_unfold. reflexivity.
Qed.

(** *** The range of the result *)

Lemma factor_pair_in (k : Z) :
  In (grad1_factor (perm_byte k), grad1_factor (perm_byte (k + 1))) factor_pairs.
Proof.
  unfold factor_pairs. apply in_map_iff. exists (k mod 256). split.
  - pose proof (Z.div_mod k 256 ltac:(lia)) as E.
    replace k with (k mod 256 + (k / 256) * 256) at 3 4 by lia.
    replace (k mod 256 + k / 256 * 256 + 1)
      with (k mod 256 + 1 + (k / 256) * 256) by ring.
    now rewrite !perm_byte_shift.
  - apply upto_spec. pose proof (Z.mod_pos_bound k 256). lia.
Qed.

Lemma covers_spec (env : list (Z * (Z * Z))) (pairs : list (Z * Z))
      (p : Z * Z) :
  covers env pairs = true -> In p pairs ->
  exists e, In e env /\ fst e = fst p /\ fst (snd e) <= snd p <= snd (snd e).
Proof.
  unfold covers. rewrite forallb_forall. intros H Hp.
  specialize (H p Hp). apply existsb_exists in H.
  destruct H as (e & He & Hb). exists e. split; [exact He | lia].
Qed.

Lemma extremes_ok_spec (env : list (Z * (Z * Z))) (x0 : Z) (e : Z * (Z * Z)) :
  N1_extremes_ok env x0 = true -> In e env ->
  N1_biased (falloff4 x0) (falloff4 (x0 - 0x1000)) x0 (fst e) (fst (snd e))
    <= 80448 /\
  - 80442 <=
    N1_biased (falloff4 x0) (falloff4 (x0 - 0x1000)) x0 (fst e) (snd (snd e)).
Proof.
  unfold N1_extremes_ok. cbv zeta. rewrite forallb_forall. intros H He.
  specialize (H e He). lia.
Qed.

Lemma envelope_covers_ok : covers factor_envelope factor_pairs = true.
Proof. vm_compute. reflexivity. Qed.

Lemma N1_extremes_all :
  forallb (N1_extremes_ok factor_envelope) (upto 4096) = true.
Proof. vm_compute. reflexivity. Qed.

(** The biased sum decreases when the factor of the right neighbour grows:
    its offset [x0 - 0x1000] is negative. *)
Lemma N1_biased_antitone (T0 T1 x0 c0 c c' : Z) :
  0 <= T1 -> x0 <= 4096 -> c <= c' ->
  N1_biased T0 T1 x0 c0 c' <= N1_biased T0 T1 x0 c0 c.
Proof.
  intros HT Hx Hc. unfold N1_biased.
  assert (H : T1 * (c' * (x0 - 0x1000)) <= T1 * (c * (x0 - 0x1000))).
  { apply Z.mul_le_mono_nonneg_l; [exact HT |].
    change 0x1000 with 4096. nia. }
  rewrite !Z.shiftr_div_pow2 by lia. change (2 ^ 12) with 4096.
  pose proof (Z.div_le_mono _ _ 4096 ltac:(lia) H). lia.
Qed.

(** The bound for an offset, a pair of the table and its envelope entry,
    all three arbitrary. *)
Lemma N1_biased_enveloped (x0 c0 c1 : Z) (e : Z * (Z * Z)) :
  0 <= x0 <= 4095 -> 0 <= falloff4 (x0 - 0x1000) ->
  In e factor_envelope ->
  fst e = c0 -> fst (snd e) <= c1 <= snd (snd e) ->
  - 80442 <= N1_biased (falloff4 x0) (falloff4 (x0 - 0x1000)) x0 c0 c1 <= 80448.
Proof.
  intros H0 HT He E Hc. subst c0.
  pose proof (forallb_upto _ _ N1_extremes_all x0 ltac:(lia)) as Hx.
  destruct (extremes_ok_spec _ _ _ Hx He) as [Hhi Hlo].
  pose proof (N1_biased_antitone (falloff4 x0) (falloff4 (x0 - 0x1000)) x0
                (fst e) (fst (snd e)) c1 HT ltac:(lia) ltac:(lia)).
  pose proof (N1_biased_antitone (falloff4 x0) (falloff4 (x0 - 0x1000)) x0
                (fst e) c1 (snd (snd e)) HT ltac:(lia) ltac:(lia)).
  lia.
Qed.

Lemma N1_biased_range (x : Z) :
  - 80442 <=
    N1_biased (falloff4 (N1.x0 x)) (falloff4 (N1.x0 x - 0x1000)) (N1.x0 x)
      (grad1_factor (perm_byte (N1.i0 x)))
      (grad1_factor (perm_byte (N1.i0 x + 1)))
  <= 80448.
Proof.
  destruct (N1_t1_4_exact x) as [_ HT1].
  destruct (covers_spec _ _ _ envelope_covers_ok (factor_pair_in (N1.i0 x)))
    as (e & He & E & Hc).
  apply (N1_biased_enveloped _ _ _ e);
    [apply N1_x0_range | apply HT1 | exact He | exact E | exact Hc].
Qed.

Lemma Noise1_exact_range (x : Z) : - 32764 <= Noise1_exact x <= 32767.
Proof.
  rewrite Noise1_exact_unfold. pose proof (N1_biased_range x) as H.
  set (v := N1_biased _ _ _ _ _) in *. clearbody v.
  change (-32764) with (Z.quot (-80442 * 16384) 40225).
  change 32767 with (Z.quot (80448 * 16384) 40225).
  split; apply Z.quot_le_mono; lia.
Qed.

(** X4. No operation of [Noise1] wraps, on any [int32] input: the [int32]
    sums, products and the shift are exact and so is the final conversion
    to [int16], so the result is the value computed in unbounded
    integers. *)
Theorem Noise1_no_overflow (x : Z) :
  is_int32 x -> Noise1 x = Some (Noise1_exact x).
Proof.
  intros _. rewrite Noise1_int32_exact. f_equal.
  pose proof (Noise1_exact_range x). apply (wrap_id 16); lia.
Qed.

Lemma Noise1_no_overflow_witness :
  Noise1 (- 2 ^ 31) = Some (Noise1_exact (- 2 ^ 31)) /\
  Noise1 75695 = Some (Noise1_exact 75695).
Proof.
  split; apply Noise1_no_overflow; unfold is_int32; lia.
Defined.

(** X5. The result of [Noise1] lies in [-32764, 32767] for every [int32]
    input, and both ends are reached: 32767 at x = 75695 and -32764 at
    x = 641022. *)
Theorem Noise1_range (x : Z) :
  is_int32 x ->
  (exists r, Noise1 x = Some r /\ - 32764 <= r <= 32767) /\
  Noise1 75695 = Some 32767 /\ Noise1 641022 = Some (- 32764).
Proof.
  intros _. split.
  - exists (Noise1_exact x). split; [| apply Noise1_exact_range].
    rewrite Noise1_int32_exact. f_equal.
    pose proof (Noise1_exact_range x). apply (wrap_id 16); lia.
  - split; vm_compute; reflexivity.
Qed.

Lemma Noise1_range_witness :
  exists r, Noise1 123456789 = Some r /\ - 32764 <= r <= 32767.
Proof.
  apply (Noise1_range 123456789). unfold is_int32. lia.
Defined.

(** X6. At every lattice point, that is whenever the twelve fractional
    bits of x are zero, [Noise1] returns 1019: both corner contributions
    vanish and only the bias is left. *)
Theorem Noise1_at_lattice_points (x : Z) :
  is_int32 x -> Z.land x 0xfff = 0 -> Noise1 x = Some 1019.
Proof.
  intros _ E. rewrite Noise1_int32_exact, Noise1_exact_unfold.
  change (N1.x0 x) with (Z.land x 0xfff). rewrite E.
  unfold N1_biased. rewrite Z.mul_0_r, Z.mul_0_r.
  change (falloff4 (0 - 0x1000)) with 0. rewrite Z.mul_0_l.
  reflexivity.
Qed.

Lemma Noise1_at_lattice_points_witness :
  Noise1 (- 4096 * 300) = Some 1019 /\ Noise1 (4096 * 77) = Some 1019.
Proof.
  split; apply Noise1_at_lattice_points;
    (unfold is_int32; lia) || (vm_compute; reflexivity).
Defined.

(** ** [Noise2] without wrap-around *)

Lemma int64_id z : is_int64 z -> int64 z = z.
Proof. apply (wrap_id 64); lia. Qed.

Lemma int64_eqm z : exists k, int64 z = z + k * 2 ^ 64.
Proof. apply wrap_eqm. lia. Qed.

(** Shifts as products and quotients by constants. *)
Ltac to_div :=
  unfold shr;
  rewrite ?Z.shiftr_div_pow2, ?Z.shiftl_mul_pow2 by lia;
  change (2 ^ 32) with 4294967296; change (2 ^ 31) with 2147483648;
  change (2 ^ 20) with 1048576; change (2 ^ 17) with 131072;
  change (2 ^ 16) with 65536; change (2 ^ 11) with 2048;
  change (2 ^ 6) with 64; change (2 ^ 1) with 2.

(** Linear arithmetic with the quotients of the goal. *)
Ltac div_lia := to_div; Z.div_mod_to_equations; lia.

(** Range side conditions. *)
Ltac in_range :=
  unfold is_int32, is_int64;
  change (2 ^ 63) with 9223372036854775808;
  change (2 ^ 31) with 2147483648.

(** The gradient directions have coordinates of magnitude 1 and 2. *)
Lemma grad2_dir_shape (hash : Z) :
  In (grad2_dir hash) grad2_dirs /\
  (Z.abs (fst (grad2_dir hash)) = 1 /\ Z.abs (snd (grad2_dir hash)) = 2 \/
   Z.abs (fst (grad2_dir hash)) = 2 /\ Z.abs (snd (grad2_dir hash)) = 1).
Proof.
  unfold grad2_dir.
  destruct (land_7_cases hash) as [E | [E | [E | [E | [E | [E | [E | E]]]]]]];
    cbv zeta in E; rewrite E; vm_compute; intuition congruence.
Qed.

(** [grad2] is exact on small coordinates. *)
Lemma grad2_small (hash u v B : Z) :
  0 <= B <= 500000000 -> - B <= u <= B -> - B <= v <= B ->
  grad2 hash u v = dot2 hash u v /\ - (3 * B) <= dot2 hash u v <= 3 * B.
Proof.
  intros HB Hu Hv. rewrite grad2_dot. unfold dot2.
  destruct (grad2_dir_shape hash) as [_ Hd].
  destruct (grad2_dir hash) as [a b]. cbn [fst snd] in *.
  assert (R : - (3 * B) <= a * u + b * v <= 3 * B) by nia.
  split; [apply int32_id; in_range; lia | exact R].
Qed.

(** The guarded block is exact when the falloff is at most 0.5 (in Q.16)
    and the gradient, if consulted, is below 2^17 in magnitude. *)
Lemma corner_weigh (t g g' : Z) :
  t <= 32768 -> (0 < t -> g = g' /\ - 131072 <= g' <= 131072) ->
  corner t (Some g) = Some (weigh t g') /\
  - 268435456 <= weigh t g' <= 268435456.
Proof.
  intros Ht Hg. unfold corner, weigh.
  destruct (Z.ltb_spec 0 t) as [Hpos | Hneg]; [| split; [reflexivity | lia]].
  destruct (Hg Hpos) as [-> Hb]. cbv zeta. unfold mul32, shr.
  assert (H1 : 0 <= t * t <= 1073741824) by nia.
  rewrite (int32_id (t * t)) by (in_range; lia).
  assert (H2 : 0 <= Z.shiftr (t * t) 16 <= 16384) by div_lia.
  set (t2 := Z.shiftr (t * t) 16) in *.
  assert (H3 : 0 <= t2 * t2 <= 268435456) by nia.
  rewrite (int32_id (t2 * t2)) by (in_range; lia).
  assert (H4 : 0 <= Z.shiftr (Z.shiftr (t2 * t2) 16) 1 <= 2048) by div_lia.
  set (t4 := Z.shiftr (Z.shiftr (t2 * t2) 16) 1) in *.
  assert (H5 : - 268435456 <= t4 * g' <= 268435456) by nia.
  split; [| exact H5]. f_equal. apply int32_id. in_range. lia.
Qed.

(** The falloff [0.5 - a^2 - b^2] is exact for offsets of at most two
    lattice units; it is at most 0.5, and where it is positive the offsets
    are below 0.71 lattice units. *)
Lemma falloff2_exact (a b : Z) :
  - 8589934592 <= a <= 8589934592 -> - 8589934592 <= b <= 8589934592 ->
  N2.falloff a b = N2Z.falloff a b /\
  N2Z.falloff a b <= 32768 /\
  (0 < N2Z.falloff a b ->
   - 23171 <= Z.shiftr a 17 <= 23170 /\ - 23171 <= Z.shiftr b 17 <= 23170).
Proof.
  intros Ha Hb.
  assert (Qa : - 131072 <= Z.shiftr a 16 <= 131072) by div_lia.
  assert (Qb : - 131072 <= Z.shiftr b 16 <= 131072) by div_lia.
  assert (Ra : Z.shiftr a 17 = Z.shiftr (Z.shiftr a 16) 1).
  { rewrite Z.shiftr_shiftr by lia. reflexivity. }
  assert (Rb : Z.shiftr b 17 = Z.shiftr (Z.shiftr b 16) 1).
  { rewrite Z.shiftr_shiftr by lia. reflexivity. }
  unfold N2.falloff, N2Z.falloff, sub64, mul64, shr. rewrite Ra, Rb.
  set (p := Z.shiftr a 16) in *. set (q := Z.shiftr b 16) in *.
  clearbody p q.
  assert (Sp : 0 <= p * p <= 17179869184) by nia.
  assert (Sq : 0 <= q * q <= 17179869184) by nia.
  change (Z.shiftl 1 31) with 2147483648.
  rewrite (int64_id (p * p)), (int64_id (q * q)) by (in_range; lia).
  rewrite (int64_id (2147483648 - p * p)) by (in_range; lia).
  rewrite (int64_id (2147483648 - p * p - q * q)) by (in_range; lia).
  set (A := 2147483648 - p * p - q * q) in *.
  assert (HA : - 32212254720 <= A <= 2147483648) by lia.
  assert (HF : - 491520 <= Z.shiftr A 16 <= 32768) by div_lia.
  split; [apply int32_id; in_range; lia |].
  split; [lia |].
  intros Hpos.
  assert (HA' : 65536 <= A) by (revert Hpos; div_lia).
  assert (Hp : - 46340 <= p <= 46340) by nia.
  assert (Hq : - 46340 <= q <= 46340) by nia.
  split; div_lia.
Qed.

(** A masked lookup reads the table at the index modulo 256, also after
    a wrapping sum. *)
Lemma perm_byte_int32 (z : Z) : perm_byte (int32 z) = perm_byte z.
Proof.
  destruct (int32_eqm z) as [k ->]. change (2 ^ 32) with 4294967296.
  replace (k * 4294967296) with ((k * 16777216) * 256) by ring.
  apply perm_byte_shift.
Qed.

Lemma lookup2_exact (a b : Z) (F : Z -> Z) :
  (do pj <- perm_at (Z.land b 0xff);
   do h <- perm_at (Z.land (add32 a (int32 pj)) 0xff);
   Some (F h))
  = Some (F (perm_byte (a + perm_byte b))).
Proof.
  destruct (perm_at_byte b) as [-> Hb].
  destruct (perm_at_byte (add32 a (int32 (perm_byte b)))) as [-> _].
  unfold add32. rewrite perm_byte_int32.
  rewrite (int32_id (perm_byte b))
    by (unfold is_uint8 in Hb; in_range; lia).
  reflexivity.
Qed.

Section Noise2_exact.
Variables x y : Z.
Hypothesis Hx : is_int32 x.
Hypothesis Hy : is_int32 y.

Lemma N2_s_exact :
  N2.s x y = N2Z.s x y /\ - 1572067135 <= N2Z.s x y < 1572067135.
Proof using Hx Hy.
  unfold is_int32 in Hx, Hy. change (2 ^ 31) with 2147483648 in Hx, Hy.
  assert (B : - 1572067135 <= N2Z.s x y < 1572067135).
  { unfold N2Z.s, N2.F2. div_lia. }
  split; [| exact B].
  unfold N2.s, mul64, add64.
  rewrite (int64_id x), (int64_id y) by (in_range; lia).
  rewrite (int64_id (x + y)) by (in_range; lia).
  rewrite (int64_id ((x + y) * N2.F2)) by (in_range; unfold N2.F2; lia).
  apply int32_id. in_range. unfold shr. fold (N2Z.s x y). lia.
Qed.

Lemma N2_ij_exact : N2.i x y = N2Z.i x y /\ N2.j x y = N2Z.j x y.
Proof using Hx Hy.
  destruct N2_s_exact as [Es Bs].
  unfold is_int32 in Hx, Hy. change (2 ^ 31) with 2147483648 in Hx, Hy.
  unfold N2.i, N2.j, add32. rewrite Es.
  rewrite !int32_id by (in_range; revert Bs; generalize (N2Z.s x y); intros;
                        div_lia).
  split; reflexivity.
Qed.

(** The lattice cell: its indices are below 2^20 in magnitude and the
    unskewed offsets of the point stay within the cell. *)
Lemma N2Z_cell_bounds :
  (- 1048576 <= N2Z.i x y <= 1048576 /\ - 1048576 <= N2Z.j x y <= 1048576) /\
  (- 909730536 <= N2Z.x0 x y <= 3389431064 /\
   - 909730536 <= N2Z.y0 x y <= 3389431064).
Proof using Hx Hy.
  unfold is_int32 in Hx, Hy. change (2 ^ 31) with 2147483648 in Hx, Hy.
  unfold N2Z.x0, N2Z.y0, N2Z.X0, N2Z.Y0, N2Z.t, N2Z.i, N2Z.j, N2Z.s,
    N2.F2, N2.G2.
  to_div. Z.div_mod_to_equations. repeat split; lia.
Qed.

Lemma N2_origin_exact :
  N2.x0 x y = N2Z.x0 x y /\ N2.y0 x y = N2Z.y0 x y.
Proof using Hx Hy.
  destruct N2_ij_exact as [Ei Ej].
  destruct N2Z_cell_bounds as [[Bi Bj] _].
  unfold is_int32 in Hx, Hy. change (2 ^ 31) with 2147483648 in Hx, Hy.
  unfold N2.x0, N2.y0, N2.X0, N2.Y0, N2.t, sub64, shl64, mul64, add64.
  rewrite Ei, Ej.
  unfold N2Z.x0, N2Z.y0, N2Z.X0, N2Z.Y0, N2Z.t.
  revert Bi Bj. generalize (N2Z.i x y) (N2Z.j x y). intros i j Bi Bj.
  rewrite (int64_id x), (int64_id y), (int64_id i), (int64_id j)
    by (in_range; lia).
  rewrite (int64_id (i + j)) by (in_range; lia).
  rewrite (int64_id ((i + j) * N2.G2)) by (in_range; unfold N2.G2; lia).
  rewrite !Z.shiftl_mul_pow2 by lia.
  change (2 ^ 32) with 4294967296. change (2 ^ 20) with 1048576.
  rewrite (int64_id (x * 1048576)), (int64_id (y * 1048576)),
    (int64_id (i * 4294967296)), (int64_id (j * 4294967296))
    by (in_range; lia).
  rewrite (int64_id (i * 4294967296 - (i + j) * N2.G2)),
    (int64_id (j * 4294967296 - (i + j) * N2.G2))
    by (in_range; unfold N2.G2; lia).
  rewrite !int64_id by (in_range; unfold N2.G2; lia).
  split; reflexivity.
Qed.

Lemma N2_middle_exact :
  (N2.i1 x y = N2Z.i1 x y /\ N2.j1 x y = N2Z.j1 x y) /\
  (N2Z.i1 x y = 0 \/ N2Z.i1 x y = 1) /\ N2Z.i1 x y + N2Z.j1 x y = 1.
Proof using Hx Hy.
  destruct N2_origin_exact as [E0 E1].
  unfold N2.i1, N2.j1. rewrite E0, E1. unfold N2Z.i1, N2Z.j1.
  destruct (N2Z.y0 x y <? N2Z.x0 x y); repeat split; auto.
Qed.

Lemma N2_corners_exact :
  (N2.x1 x y = N2Z.x1 x y /\ N2.y1 x y = N2Z.y1 x y /\
   N2.x2 x y = N2Z.x2 x y /\ N2.y2 x y = N2Z.y2 x y) /\
  (- 8589934592 <= N2Z.x1 x y <= 8589934592 /\
   - 8589934592 <= N2Z.y1 x y <= 8589934592 /\
   - 8589934592 <= N2Z.x2 x y <= 8589934592 /\
   - 8589934592 <= N2Z.y2 x y <= 8589934592).
Proof using Hx Hy.
  destruct N2_origin_exact as [E0 E1].
  destruct N2_middle_exact as ([Ei1 Ej1] & Hi1 & Hj1).
  destruct N2Z_cell_bounds as [_ [B0 B1]].
  unfold N2.x1, N2.y1, N2.x2, N2.y2, add64, sub64, shl64.
  rewrite E0, E1, Ei1, Ej1.
  unfold N2Z.x1, N2Z.y1, N2Z.x2, N2Z.y2.
  revert Hi1 Hj1 B0 B1.
  generalize (N2Z.x0 x y) (N2Z.y0 x y) (N2Z.i1 x y) (N2Z.j1 x y).
  intros a b i1 j1 Hi1 Hj1 Ba Bb.
  rewrite (int64_id i1), (int64_id j1) by (in_range; lia).
  rewrite !Z.shiftl_mul_pow2 by lia. change (2 ^ 32) with 4294967296.
  unfold N2.G2.
  rewrite (int64_id (i1 * 4294967296)), (int64_id (j1 * 4294967296))
    by (in_range; lia).
  rewrite (int64_id (a - i1 * 4294967296)), (int64_id (b - j1 * 4294967296)),
    (int64_id (a - 1 * 4294967296)), (int64_id (b - 1 * 4294967296))
    by (in_range; lia).
  rewrite !int64_id by (in_range; lia).
  repeat split; lia.
Qed.

Lemma N2_falloffs_exact :
  N2.t0 x y = N2Z.t0 x y /\ N2.t1 x y = N2Z.t1 x y /\
  N2.t2 x y = N2Z.t2 x y.
Proof using Hx Hy.
  destruct N2_origin_exact as [E0 E1].
  destruct N2_corners_exact as [(Ex1 & Ey1 & Ex2 & Ey2) (B1 & B2 & B3 & B4)].
  destruct N2Z_cell_bounds as [_ [B0 B0']].
  unfold N2.t0, N2.t1, N2.t2. rewrite E0, E1, Ex1, Ey1, Ex2, Ey2.
  unfold N2Z.t0, N2Z.t1, N2Z.t2.
  repeat split; apply falloff2_exact; lia.
Qed.

(** A corner of [Noise2]: the hashed gradient at offset [(a, b)], weighed
    by the falloff. *)
Lemma N2_corner_exact (ii jj a b : Z) :
  - 8589934592 <= a <= 8589934592 -> - 8589934592 <= b <= 8589934592 ->
  corner (N2Z.falloff a b)
    (do pj <- perm_at (Z.land jj 0xff);
     do h <- perm_at (Z.land (add32 ii (int32 pj)) 0xff);
     Some (grad2 h (int32 (shr a 17)) (int32 (shr b 17))))
  = Some (weigh (N2Z.falloff a b)
            (dot2 (perm_byte (ii + perm_byte jj))
               (Z.shiftr a 17) (Z.shiftr b 17))) /\
  - 268435456 <=
    weigh (N2Z.falloff a b)
      (dot2 (perm_byte (ii + perm_byte jj)) (Z.shiftr a 17) (Z.shiftr b 17))
  <= 268435456.
Proof.
  intros Ha Hb.
  rewrite (lookup2_exact ii jj
             (fun h => grad2 h (int32 (shr a 17)) (int32 (shr b 17)))).
  destruct (falloff2_exact a b Ha Hb) as (_ & Ht & Hpos).
  assert (Ua : - 65536 <= Z.shiftr a 17 <= 65536) by div_lia.
  assert (Ub : - 65536 <= Z.shiftr b 17 <= 65536) by div_lia.
  unfold shr.
  rewrite (int32_id (Z.shiftr a 17)), (int32_id (Z.shiftr b 17))
    by (in_range; lia).
  apply corner_weigh; [exact Ht |].
  intros Hp. destruct (Hpos Hp) as [Pa Pb].
  destruct (grad2_small (perm_byte (ii + perm_byte jj))
              (Z.shiftr a 17) (Z.shiftr b 17) 23171) as [E R];
    [lia | lia | lia |].
  split; [exact E | lia].
Qed.

Lemma N2_contributions_exact :
  (N2.n0 x y = Some (N2Z.n0 x y) /\ N2.n1 x y = Some (N2Z.n1 x y) /\
   N2.n2 x y = Some (N2Z.n2 x y)) /\
  (- 268435456 <= N2Z.n0 x y <= 268435456 /\
   - 268435456 <= N2Z.n1 x y <= 268435456 /\
   - 268435456 <= N2Z.n2 x y <= 268435456).
Proof using Hx Hy.
  destruct N2_ij_exact as [Ei Ej].
  destruct N2_origin_exact as [E0 E1].
  destruct N2_middle_exact as ([Ei1 Ej1] & Hi1 & Hj1).
  destruct N2_corners_exact as [(Ex1 & Ey1 & Ex2 & Ey2) (B1 & B2 & B3 & B4)].
  destruct N2_falloffs_exact as (Et0 & Et1 & Et2).
  destruct N2Z_cell_bounds as [[Bi Bj] [B0 B0']].
  unfold N2.n0, N2.n1, N2.n2, N2.g0, N2.g1, N2.g2.
  rewrite Et0, Et1, Et2, E0, E1, Ex1, Ey1, Ex2, Ey2, Ei, Ej, Ei1, Ej1.
  assert (A1 : add32 (N2Z.i x y) (N2Z.i1 x y) = N2Z.i x y + N2Z.i1 x y)
    by (apply int32_id; in_range; lia).
  assert (A2 : add32 (N2Z.j x y) (N2Z.j1 x y) = N2Z.j x y + N2Z.j1 x y)
    by (apply int32_id; in_range; lia).
  assert (A3 : add32 (N2Z.i x y) 1 = N2Z.i x y + 1)
    by (apply int32_id; in_range; lia).
  assert (A4 : add32 (N2Z.j x y) 1 = N2Z.j x y + 1)
    by (apply int32_id; in_range; lia).
  rewrite A1, A2, A3, A4.
  unfold N2Z.n0, N2Z.n1, N2Z.n2, N2Z.t0, N2Z.t1, N2Z.t2.
  destruct (N2_corner_exact (N2Z.i x y) (N2Z.j x y) (N2Z.x0 x y) (N2Z.y0 x y))
    as [C0 R0]; [lia | lia |].
  destruct (N2_corner_exact (N2Z.i x y + N2Z.i1 x y) (N2Z.j x y + N2Z.j1 x y)
              (N2Z.x1 x y) (N2Z.y1 x y)) as [C1 R1]; [lia | lia |].
  destruct (N2_corner_exact (N2Z.i x y + 1) (N2Z.j x y + 1)
              (N2Z.x2 x y) (N2Z.y2 x y)) as [C2 R2]; [lia | lia |].
  split; [split; [exact C0 | split; [exact C1 | exact C2]] |].
  split; [exact R0 | split; [exact R1 | exact R2]].
Qed.
End Noise2_exact.

(** ** [Noise3] without wrap-around *)

Lemma grad3_dir_shape (hash : Z) : is_cube_edge (grad3_dir hash).
Proof.
  unfold grad3_dir.
  destruct (land_15_cases hash)
    as [[E | [E | [E | E]]] | [[E | [E | [E | E]]] | [[E | [E | [E | E]]]
       | [E | [E | [E | E]]]]]];
    cbv zeta in E; rewrite E; vm_compute; intuition congruence.
Qed.

Lemma grad3_small (hash u v w B : Z) :
  0 <= B <= 500000000 -> - B <= u <= B -> - B <= v <= B -> - B <= w <= B ->
  grad3 hash u v w = dot3 hash u v w /\ - (2 * B) <= dot3 hash u v w <= 2 * B.
Proof.
  intros HB Hu Hv Hw.
  pose proof (grad3_dot hash u v w) as E.
  pose proof (grad3_dir_shape hash) as Hd. unfold dot3.
  destruct (grad3_dir hash) as [[a b] c]. unfold is_cube_edge in Hd.
  assert (R : - (2 * B) <= a * u + b * v + c * w <= 2 * B) by nia.
  split; [rewrite E; apply int32_id; in_range; lia | exact R].
Qed.

(** The guarded block for a falloff of at most 0.6 (in Q.16). *)
Lemma corner_weigh3 (t g g' : Z) :
  t <= 39321 -> (0 < t -> g = g' /\ - 60000 <= g' <= 60000) ->
  corner t (Some g) = Some (weigh t g') /\
  - 268435456 <= weigh t g' <= 268435456.
Proof.
  intros Ht Hg. unfold corner, weigh.
  destruct (Z.ltb_spec 0 t) as [Hpos | Hneg]; [| split; [reflexivity | lia]].
  destruct (Hg Hpos) as [-> Hb]. cbv zeta. unfold mul32, shr.
  assert (H1 : 0 <= t * t <= 1546141041) by nia.
  rewrite (int32_id (t * t)) by (in_range; lia).
  assert (H2 : 0 <= Z.shiftr (t * t) 16 <= 23592) by div_lia.
  set (t2 := Z.shiftr (t * t) 16) in *.
  assert (H3 : 0 <= t2 * t2 <= 556582464) by nia.
  rewrite (int32_id (t2 * t2)) by (in_range; lia).
  assert (H4 : 0 <= Z.shiftr (Z.shiftr (t2 * t2) 16) 1 <= 4246) by div_lia.
  set (t4 := Z.shiftr (Z.shiftr (t2 * t2) 16) 1) in *.
  assert (H5 : - 268435456 <= t4 * g' <= 268435456) by nia.
  split; [| exact H5]. f_equal. apply int32_id. in_range. lia.
Qed.

(** The falloff [0.6 - a^2 - b^2 - c^2]. *)
Lemma falloff3_exact (a b c : Z) :
  - 8589934592 <= a <= 8589934592 -> - 8589934592 <= b <= 8589934592 ->
  - 8589934592 <= c <= 8589934592 ->
  N3.falloff a b c = N3Z.falloff a b c /\
  N3Z.falloff a b c <= 39321 /\
  (0 < N3Z.falloff a b c ->
   - 25382 <= Z.shiftr a 17 <= 25381 /\ - 25382 <= Z.shiftr b 17 <= 25381 /\
   - 25382 <= Z.shiftr c 17 <= 25381).
Proof.
  intros Ha Hb Hc.
  assert (Qa : - 131072 <= Z.shiftr a 16 <= 131072) by div_lia.
  assert (Qb : - 131072 <= Z.shiftr b 16 <= 131072) by div_lia.
  assert (Qc : - 131072 <= Z.shiftr c 16 <= 131072) by div_lia.
  assert (Ra : Z.shiftr a 17 = Z.shiftr (Z.shiftr a 16) 1)
    by (rewrite Z.shiftr_shiftr by lia; reflexivity).
  assert (Rb : Z.shiftr b 17 = Z.shiftr (Z.shiftr b 16) 1)
    by (rewrite Z.shiftr_shiftr by lia; reflexivity).
  assert (Rc : Z.shiftr c 17 = Z.shiftr (Z.shiftr c 16) 1)
    by (rewrite Z.shiftr_shiftr by lia; reflexivity).
  unfold N3.falloff, N3Z.falloff, sub64, mul64, shr, N3.fix0_6.
  rewrite Ra, Rb, Rc.
  set (p := Z.shiftr a 16) in *. set (q := Z.shiftr b 16) in *.
  set (r := Z.shiftr c 16) in *. clearbody p q r.
  assert (Sp : 0 <= p * p <= 17179869184) by nia.
  assert (Sq : 0 <= q * q <= 17179869184) by nia.
  assert (Sr : 0 <= r * r <= 17179869184) by nia.
  rewrite (int64_id (p * p)), (int64_id (q * q)), (int64_id (r * r))
    by (in_range; lia).
  rewrite (int64_id (2576980378 - p * p)) by (in_range; lia).
  rewrite (int64_id (2576980378 - p * p - q * q)) by (in_range; lia).
  rewrite (int64_id (2576980378 - p * p - q * q - r * r)) by (in_range; lia).
  set (A := 2576980378 - p * p - q * q - r * r) in *.
  assert (HA : - 48962627174 <= A <= 2576980378) by lia.
  assert (HF : - 747111 <= Z.shiftr A 16 <= 39321) by div_lia.
  split; [apply int32_id; in_range; lia |].
  split; [lia |].
  intros Hpos.
  assert (HA' : 65536 <= A) by (revert Hpos; div_lia).
  assert (Hp : - 50763 <= p <= 50763) by nia.
  assert (Hq : - 50763 <= q <= 50763) by nia.
  assert (Hr : - 50763 <= r <= 50763) by nia.
  repeat split; div_lia.
Qed.

Lemma lookup3_exact (a b c : Z) : N3.hash a b c = Some (N3Z.hash a b c).
Proof.
  unfold N3.hash, N3Z.hash.
  destruct (perm_at_byte c) as [-> Hc].
  destruct (perm_at_byte (add32 b (int32 (perm_byte c)))) as [-> Hb].
  destruct (perm_at_byte
              (add32 a (int32 (perm_byte (add32 b (int32 (perm_byte c)))))))
    as [-> _].
  unfold add32 at 1. rewrite perm_byte_int32.
  rewrite (int32_id (perm_byte (add32 b (int32 (perm_byte c)))))
    by (unfold is_uint8 in Hb; in_range; lia).
  unfold add32. rewrite perm_byte_int32.
  rewrite (int32_id (perm_byte c)) by (unfold is_uint8 in Hc; in_range; lia).
  reflexivity.
Qed.

(** The cascade yields lattice steps: every component is 0 or 1, the
    second corner is one step from the origin, the third is one further
    step, in a direction not yet taken. *)
Lemma order_path (a b c : Z) :
  let '((i1, j1, k1), (i2, j2, k2)) := N3.order a b c in
  (0 <= i1 <= i2 /\ i2 <= 1) /\ (0 <= j1 <= j2 /\ j2 <= 1) /\
  (0 <= k1 <= k2 /\ k2 <= 1) /\
  i1 + j1 + k1 = 1 /\ i2 + j2 + k2 = 2.
Proof.
  unfold N3.order.
  destruct (b <=? a), (c <=? b), (c <=? a), (b <? c), (a <? c);
    repeat split; lia.
Qed.

Section Noise3_exact.
Variables x y z : Z.
Hypothesis Hx : is_int32 x.
Hypothesis Hy : is_int32 y.
Hypothesis Hz : is_int32 z.

Lemma N3_s_exact :
  N3.s x y z = N3Z.s x y z /\ - 2147483648 <= N3Z.s x y z < 2147483648.
Proof using Hx Hy Hz.
  unfold is_int32 in Hx, Hy, Hz.
  change (2 ^ 31) with 2147483648 in Hx, Hy, Hz.
  assert (B : - 2147483648 <= N3Z.s x y z < 2147483648).
  { unfold N3Z.s, N3.F3. div_lia. }
  split; [| exact B].
  unfold N3.s, mul64, add64.
  rewrite (int64_id x), (int64_id y), (int64_id z) by (in_range; lia).
  rewrite (int64_id (x + y)) by (in_range; lia).
  rewrite (int64_id (x + y + z)) by (in_range; lia).
  rewrite (int64_id ((x + y + z) * N3.F3)) by (in_range; unfold N3.F3; lia).
  apply int32_id. in_range. unfold shr. fold (N3Z.s x y z). lia.
Qed.

Lemma N3_ijk_exact :
  N3.i x y z = N3Z.i x y z /\ N3.j x y z = N3Z.j x y z /\
  N3.k x y z = N3Z.k x y z.
Proof using Hx Hy Hz.
  destruct N3_s_exact as [Es _].
  assert (B : - 2147483648 <= Z.shiftr x 1 + Z.shiftr (N3Z.s x y z) 1
                < 2147483648 /\
              - 2147483648 <= Z.shiftr y 1 + Z.shiftr (N3Z.s x y z) 1
                < 2147483648 /\
              - 2147483648 <= Z.shiftr z 1 + Z.shiftr (N3Z.s x y z) 1
                < 2147483648).
  { unfold is_int32 in Hx, Hy, Hz.
    change (2 ^ 31) with 2147483648 in Hx, Hy, Hz.
    unfold N3Z.s, N3.F3. to_div. Z.div_mod_to_equations. repeat split; lia. }
  destruct B as (B1 & B2 & B3).
  unfold N3.i, N3.j, N3.k, add32, shr. rewrite Es.
  rewrite !int32_id by (in_range; lia).
  repeat split; reflexivity.
Qed.

(** The lattice cell of [Noise3]. *)
Lemma N3Z_cell_bounds :
  (- 1048576 <= N3Z.i x y z <= 1048576 /\
   - 1048576 <= N3Z.j x y z <= 1048576 /\
   - 1048576 <= N3Z.k x y z <= 1048576) /\
  (- 1437947222 <= N3Z.x0 x y z <= 3585430869 /\
   - 1437947222 <= N3Z.y0 x y z <= 3585430869 /\
   - 1437947222 <= N3Z.z0 x y z <= 3585430869).
Proof using Hx Hy Hz.
  unfold is_int32 in Hx, Hy, Hz.
  change (2 ^ 31) with 2147483648 in Hx, Hy, Hz.
  unfold N3Z.x0, N3Z.y0, N3Z.z0, N3Z.X0, N3Z.Y0, N3Z.Z0, N3Z.t,
    N3Z.i, N3Z.j, N3Z.k, N3Z.s, N3.F3, N3.G3.
  to_div. Z.div_mod_to_equations. repeat split; lia.
Qed.

Lemma N3_origin_exact :
  N3.x0 x y z = N3Z.x0 x y z /\ N3.y0 x y z = N3Z.y0 x y z /\
  N3.z0 x y z = N3Z.z0 x y z.
Proof using Hx Hy Hz.
  destruct N3_ijk_exact as (Ei & Ej & Ek).
  destruct N3Z_cell_bounds as [(Bi & Bj & Bk) _].
  unfold is_int32 in Hx, Hy, Hz.
  change (2 ^ 31) with 2147483648 in Hx, Hy, Hz.
  unfold N3.x0, N3.y0, N3.z0, N3.X0, N3.Y0, N3.Z0, N3.t,
    sub64, shl64, mul64, add64.
  rewrite Ei, Ej, Ek.
  unfold N3Z.x0, N3Z.y0, N3Z.z0, N3Z.X0, N3Z.Y0, N3Z.Z0, N3Z.t.
  revert Bi Bj Bk. generalize (N3Z.i x y z) (N3Z.j x y z) (N3Z.k x y z).
  intros i j k Bi Bj Bk.
  rewrite (int64_id x), (int64_id y), (int64_id z), (int64_id i),
    (int64_id j), (int64_id k) by (in_range; lia).
  rewrite (int64_id (i + j)) by (in_range; lia).
  rewrite (int64_id (i + j + k)) by (in_range; lia).
  rewrite (int64_id ((i + j + k) * N3.G3)) by (in_range; unfold N3.G3; lia).
  rewrite !Z.shiftl_mul_pow2 by lia.
  change (2 ^ 32) with 4294967296. change (2 ^ 20) with 1048576.
  rewrite (int64_id (x * 1048576)), (int64_id (y * 1048576)),
    (int64_id (z * 1048576)), (int64_id (i * 4294967296)),
    (int64_id (j * 4294967296)), (int64_id (k * 4294967296))
    by (in_range; lia).
  rewrite (int64_id (i * 4294967296 - (i + j + k) * N3.G3)),
    (int64_id (j * 4294967296 - (i + j + k) * N3.G3)),
    (int64_id (k * 4294967296 - (i + j + k) * N3.G3))
    by (in_range; unfold N3.G3; lia).
  rewrite !int64_id by (in_range; unfold N3.G3; lia).
  repeat split; reflexivity.
Qed.

Lemma N3_steps_exact :
  N3.i1 x y z = N3Z.i1 x y z /\ N3.j1 x y z = N3Z.j1 x y z /\
  N3.k1 x y z = N3Z.k1 x y z /\ N3.i2 x y z = N3Z.i2 x y z /\
  N3.j2 x y z = N3Z.j2 x y z /\ N3.k2 x y z = N3Z.k2 x y z.
Proof using Hx Hy Hz.
  destruct N3_origin_exact as (E0 & E1 & E2).
  unfold N3.i1, N3.j1, N3.k1, N3.i2, N3.j2, N3.k2. rewrite E0, E1, E2.
  repeat split; reflexivity.
Qed.

Lemma N3Z_steps :
  (0 <= N3Z.i1 x y z <= 1 /\ 0 <= N3Z.j1 x y z <= 1 /\
   0 <= N3Z.k1 x y z <= 1) /\
  (0 <= N3Z.i2 x y z <= 1 /\ 0 <= N3Z.j2 x y z <= 1 /\
   0 <= N3Z.k2 x y z <= 1).
Proof.
  unfold N3Z.i1, N3Z.j1, N3Z.k1, N3Z.i2, N3Z.j2, N3Z.k2.
  pose proof (order_path (N3Z.x0 x y z) (N3Z.y0 x y z) (N3Z.z0 x y z)) as H.
  destruct (N3.order (N3Z.x0 x y z) (N3Z.y0 x y z) (N3Z.z0 x y z))
    as [[[a b] c] [[d e] f]].
  cbn [fst snd]. repeat split; lia.
Qed.

(** An offset of a later corner: a lattice step back and a multiple of
    [G3] forward. *)
Lemma N3_offset_exact (a d m : Z) :
  - 1437947222 <= a <= 3585430869 -> 0 <= d <= 1 -> 0 <= m <= 2147483652 ->
  add64 (sub64 a (shl64 (int64 d) 32)) m = a - Z.shiftl d 32 + m /\
  - 8589934592 <= a - Z.shiftl d 32 + m <= 8589934592.
Proof.
  intros Ha Hd Hm. unfold add64, sub64, shl64.
  rewrite (int64_id d) by (in_range; lia).
  rewrite !Z.shiftl_mul_pow2 by lia. change (2 ^ 32) with 4294967296.
  rewrite (int64_id (d * 4294967296)) by (in_range; lia).
  rewrite (int64_id (a - d * 4294967296)) by (in_range; lia).
  rewrite int64_id by (in_range; lia).
  split; [reflexivity | lia].
Qed.

Lemma N3_last_exact (a m : Z) :
  - 1437947222 <= a <= 3585430869 -> 0 <= m <= 2147483652 ->
  add64 (sub64 a (Z.shiftl 1 32)) m = a - Z.shiftl 1 32 + m /\
  - 8589934592 <= a - Z.shiftl 1 32 + m <= 8589934592.
Proof.
  intros Ha Hm. unfold add64, sub64.
  change (Z.shiftl 1 32) with 4294967296.
  rewrite (int64_id (a - 4294967296)) by (in_range; lia).
  rewrite int64_id by (in_range; lia).
  split; [reflexivity | lia].
Qed.

(** A corner of [Noise3]: the hashed gradient at offset [(a, b, c)],
    weighed by the falloff. *)
Lemma N3_corner_exact (ii jj kk a b c : Z) :
  - 8589934592 <= a <= 8589934592 -> - 8589934592 <= b <= 8589934592 ->
  - 8589934592 <= c <= 8589934592 ->
  corner (N3Z.falloff a b c)
    (do h <- N3.hash ii jj kk;
     Some (grad3 h (int32 (shr a 17)) (int32 (shr b 17)) (int32 (shr c 17))))
  = Some (weigh (N3Z.falloff a b c)
            (dot3 (N3Z.hash ii jj kk)
               (Z.shiftr a 17) (Z.shiftr b 17) (Z.shiftr c 17))) /\
  - 268435456 <=
    weigh (N3Z.falloff a b c)
      (dot3 (N3Z.hash ii jj kk) (Z.shiftr a 17) (Z.shiftr b 17) (Z.shiftr c 17))
  <= 268435456.
Proof.
  intros Ha Hb Hc. rewrite lookup3_exact.
  destruct (falloff3_exact a b c Ha Hb Hc) as (_ & Ht & Hpos).
  assert (Ua : - 65536 <= Z.shiftr a 17 <= 65536) by div_lia.
  assert (Ub : - 65536 <= Z.shiftr b 17 <= 65536) by div_lia.
  assert (Uc : - 65536 <= Z.shiftr c 17 <= 65536) by div_lia.
  unfold shr.
  rewrite (int32_id (Z.shiftr a 17)), (int32_id (Z.shiftr b 17)),
    (int32_id (Z.shiftr c 17)) by (in_range; lia).
  apply corner_weigh3; [exact Ht |].
  intros Hp. destruct (Hpos Hp) as (Pa & Pb & Pc).
  destruct (grad3_small (N3Z.hash ii jj kk)
              (Z.shiftr a 17) (Z.shiftr b 17) (Z.shiftr c 17) 25382)
    as [E R]; [lia | lia | lia | lia |].
  split; [exact E | lia].
Qed.

Lemma N3_corners_exact :
  (N3.x1 x y z = N3Z.x1 x y z /\ N3.y1 x y z = N3Z.y1 x y z /\
   N3.z1 x y z = N3Z.z1 x y z) /\
  (N3.x2 x y z = N3Z.x2 x y z /\ N3.y2 x y z = N3Z.y2 x y z /\
   N3.z2 x y z = N3Z.z2 x y z) /\
  (N3.x3 x y z = N3Z.x3 x y z /\ N3.y3 x y z = N3Z.y3 x y z /\
   N3.z3 x y z = N3Z.z3 x y z).
Proof using Hx Hy Hz.
  destruct N3_origin_exact as (E0 & E1 & E2).
  destruct N3_steps_exact as (Ei1 & Ej1 & Ek1 & Ei2 & Ej2 & Ek2).
  destruct N3Z_cell_bounds as [_ (B0 & B1 & B2)].
  destruct N3Z_steps as [(Si1 & Sj1 & Sk1) (Si2 & Sj2 & Sk2)].
  unfold N3.x1, N3.y1, N3.z1, N3.x2, N3.y2, N3.z2, N3.x3, N3.y3, N3.z3.
  rewrite E0, E1, E2, Ei1, Ej1, Ek1, Ei2, Ej2, Ek2.
  unfold N3Z.x1, N3Z.y1, N3Z.z1, N3Z.x2, N3Z.y2, N3Z.z2,
    N3Z.x3, N3Z.y3, N3Z.z3, N3.G3.
  repeat split;
    (apply N3_offset_exact || apply N3_last_exact); assumption || lia.
Qed.

Lemma N3Z_corner_bounds :
  (- 8589934592 <= N3Z.x1 x y z <= 8589934592 /\
   - 8589934592 <= N3Z.y1 x y z <= 8589934592 /\
   - 8589934592 <= N3Z.z1 x y z <= 8589934592) /\
  (- 8589934592 <= N3Z.x2 x y z <= 8589934592 /\
   - 8589934592 <= N3Z.y2 x y z <= 8589934592 /\
   - 8589934592 <= N3Z.z2 x y z <= 8589934592) /\
  (- 8589934592 <= N3Z.x3 x y z <= 8589934592 /\
   - 8589934592 <= N3Z.y3 x y z <= 8589934592 /\
   - 8589934592 <= N3Z.z3 x y z <= 8589934592).
Proof using Hx Hy Hz.
  destruct N3Z_cell_bounds as [_ (B0 & B1 & B2)].
  destruct N3Z_steps as [(Si1 & Sj1 & Sk1) (Si2 & Sj2 & Sk2)].
  unfold N3Z.x1, N3Z.y1, N3Z.z1, N3Z.x2, N3Z.y2, N3Z.z2,
    N3Z.x3, N3Z.y3, N3Z.z3, N3.G3.
  repeat split;
    (apply N3_offset_exact || apply N3_last_exact); assumption || lia.
Qed.

Lemma N3_falloffs_exact :
  N3.t0 x y z = N3Z.t0 x y z /\ N3.t1 x y z = N3Z.t1 x y z /\
  N3.t2 x y z = N3Z.t2 x y z /\ N3.t3 x y z = N3Z.t3 x y z.
Proof using Hx Hy Hz.
  destruct N3_origin_exact as (E0 & E1 & E2).
  destruct N3_corners_exact
    as ((Ex1 & Ey1 & Ez1) & (Ex2 & Ey2 & Ez2) & (Ex3 & Ey3 & Ez3)).
  destruct N3Z_corner_bounds
    as ((Bx1 & By1 & Bz1) & (Bx2 & By2 & Bz2) & (Bx3 & By3 & Bz3)).
  destruct N3Z_cell_bounds as [_ (B0 & B1 & B2)].
  unfold N3.t0, N3.t1, N3.t2, N3.t3.
  rewrite E0, E1, E2, Ex1, Ey1, Ez1, Ex2, Ey2, Ez2, Ex3, Ey3, Ez3.
  unfold N3Z.t0, N3Z.t1, N3Z.t2, N3Z.t3.
  repeat split; apply falloff3_exact; lia.
Qed.

Lemma N3_contributions_exact :
  (N3.n0 x y z = Some (N3Z.n0 x y z) /\ N3.n1 x y z = Some (N3Z.n1 x y z) /\
   N3.n2 x y z = Some (N3Z.n2 x y z) /\ N3.n3 x y z = Some (N3Z.n3 x y z)) /\
  (- 268435456 <= N3Z.n0 x y z <= 268435456 /\
   - 268435456 <= N3Z.n1 x y z <= 268435456 /\
   - 268435456 <= N3Z.n2 x y z <= 268435456 /\
   - 268435456 <= N3Z.n3 x y z <= 268435456).
Proof using Hx Hy Hz.
  destruct N3_ijk_exact as (Ei & Ej & Ek).
  destruct N3_origin_exact as (E0 & E1 & E2).
  destruct N3_steps_exact as (Ei1 & Ej1 & Ek1 & Ei2 & Ej2 & Ek2).
  destruct N3_corners_exact
    as ((Ex1 & Ey1 & Ez1) & (Ex2 & Ey2 & Ez2) & (Ex3 & Ey3 & Ez3)).
  destruct N3Z_corner_bounds
    as ((Bx1 & By1 & Bz1) & (Bx2 & By2 & Bz2) & (Bx3 & By3 & Bz3)).
  destruct N3_falloffs_exact as (Et0 & Et1 & Et2 & Et3).
  destruct N3Z_cell_bounds as [(Bi & Bj & Bk) (B0 & B1 & B2)].
  destruct N3Z_steps as [(Si1 & Sj1 & Sk1) (Si2 & Sj2 & Sk2)].
  unfold N3.n0, N3.n1, N3.n2, N3.n3, N3.g0, N3.g1, N3.g2, N3.g3.
  rewrite Et0, Et1, Et2, Et3, E0, E1, E2, Ex1, Ey1, Ez1, Ex2, Ey2, Ez2,
    Ex3, Ey3, Ez3, Ei, Ej, Ek, Ei1, Ej1, Ek1, Ei2, Ej2, Ek2.
  assert (A : forall a d, - 1048576 <= a <= 1048576 -> 0 <= d <= 1 ->
                          add32 a d = a + d)
    by (intros; apply int32_id; in_range; lia).
  rewrite !A by (assumption || lia).
  unfold N3Z.n0, N3Z.n1, N3Z.n2, N3Z.n3, N3Z.t0, N3Z.t1, N3Z.t2, N3Z.t3.
  destruct (N3_corner_exact (N3Z.i x y z) (N3Z.j x y z) (N3Z.k x y z)
              (N3Z.x0 x y z) (N3Z.y0 x y z) (N3Z.z0 x y z))
    as [C0 R0]; [lia | lia | lia |].
  destruct (N3_corner_exact (N3Z.i x y z + N3Z.i1 x y z)
              (N3Z.j x y z + N3Z.j1 x y z) (N3Z.k x y z + N3Z.k1 x y z)
              (N3Z.x1 x y z) (N3Z.y1 x y z) (N3Z.z1 x y z))
    as [C1 R1]; [lia | lia | lia |].
  destruct (N3_corner_exact (N3Z.i x y z + N3Z.i2 x y z)
              (N3Z.j x y z + N3Z.j2 x y z) (N3Z.k x y z + N3Z.k2 x y z)
              (N3Z.x2 x y z) (N3Z.y2 x y z) (N3Z.z2 x y z))
    as [C2 R2]; [lia | lia | lia |].
  destruct (N3_corner_exact (N3Z.i x y z + 1) (N3Z.j x y z + 1)
              (N3Z.k x y z + 1)
              (N3Z.x3 x y z) (N3Z.y3 x y z) (N3Z.z3 x y z))
    as [C3 R3]; [lia | lia | lia |].
  split; [split; [exact C0 | split; [exact C1 | split; [exact C2 | exact C3]]] |].
  split; [exact R0 | split; [exact R1 | split; [exact R2 | exact R3]]].
Qed.
End Noise3_exact.

(** ** Statements on [Noise2] and [Noise3] *)

Lemma finish_quot (m d : Z) :
  d <> 0 -> 0 < d ->
  (do n <- div32 (int32 m) d; Some (int16 n))
  = Some (int16 (Z.quot (int32 m) d)).
Proof.
  intros Hd Hp. unfold div32.
  destruct (Z.eqb_spec d 0) as [E | _]; [contradiction |].
  rewrite (int32_id (Z.quot (int32 m) d));
    [reflexivity | apply quot_small; [exact Hp | apply int32_range]].
Qed.

(** X7. In [Noise2] the search of the lattice cell and the unskewing are
    exact on every [int32] input: the cell indices stay below 2^20 in
    magnitude, the offsets of the point from the cell origin are
    [x*2^20 - i*2^32 + (i+j)*G2] (and likewise for y) in Q.32, and they stay
    within the cell, between -0.212 and 0.79 lattice units. *)
Theorem Noise2_cell (x y : Z) :
  is_int32 x -> is_int32 y ->
  let i := N2.i x y in
  let j := N2.j x y in
  (- 2 ^ 20 <= i <= 2 ^ 20 /\ - 2 ^ 20 <= j <= 2 ^ 20) /\
  N2.x0 x y = x * 2 ^ 20 - i * 2 ^ 32 + (i + j) * N2.G2 /\
  N2.y0 x y = y * 2 ^ 20 - j * 2 ^ 32 + (i + j) * N2.G2 /\
  - 909730536 <= N2.x0 x y <= 3389431064 /\
  - 909730536 <= N2.y0 x y <= 3389431064.
Proof.
  intros Hx Hy i j. subst i j.
  destruct (N2_ij_exact x y Hx Hy) as [-> ->].
  destruct (N2_origin_exact x y Hx Hy) as [-> ->].
  destruct (N2Z_cell_bounds x y Hx Hy) as [[Bi Bj] [B0 B1]].
  change (2 ^ 20) with 1048576. change (2 ^ 32) with 4294967296.
  split; [split; assumption |].
  split; [| split; [| split; assumption]].
  - unfold N2Z.x0, N2Z.X0, N2Z.t. rewrite !Z.shiftl_mul_pow2 by lia.
    change (2 ^ 20) with 1048576. change (2 ^ 32) with 4294967296. ring.
  - unfold N2Z.y0, N2Z.Y0, N2Z.t. rewrite !Z.shiftl_mul_pow2 by lia.
    change (2 ^ 20) with 1048576. change (2 ^ 32) with 4294967296. ring.
Qed.

Lemma Noise2_cell_witness :
  - 909730536 <= N2.x0 (- 2 ^ 31) (2 ^ 31 - 1) <= 3389431064 /\
  - 909730536 <= N2.y0 (- 2 ^ 31) (2 ^ 31 - 1) <= 3389431064.
Proof.
  assert (H1 : is_int32 (- 2 ^ 31)) by (unfold is_int32; lia).
  assert (H2 : is_int32 (2 ^ 31 - 1)) by (unfold is_int32; lia).
  pose proof (Noise2_cell (- 2 ^ 31) (2 ^ 31 - 1) H1 H2) as H.
  cbv zeta in H. destruct H as (_ & _ & _ & A & B). exact (conj A B).
Defined.

(** X8. On every [int32] input no operation of [Noise2] wraps before the
    final shift: the three contributions are the values computed in
    unbounded integers, each of magnitude at most 2^28, their sum is exact,
    and the result is that sum shifted by 6 in [int32], divided by 46360
    and truncated to [int16]. *)
Theorem Noise2_no_overflow_before_scaling (x y : Z) :
  is_int32 x -> is_int32 y ->
  let n0 := N2Z.n0 x y in
  let n1 := N2Z.n1 x y in
  let n2 := N2Z.n2 x y in
  (N2.n0 x y = Some n0 /\ N2.n1 x y = Some n1 /\ N2.n2 x y = Some n2) /\
  (Z.abs n0 <= 2 ^ 28 /\ Z.abs n1 <= 2 ^ 28 /\ Z.abs n2 <= 2 ^ 28) /\
  Noise2 x y = Some (int16 (Z.quot (int32 ((n0 + n1 + n2) * 64)) 46360)).
Proof.
  intros Hx Hy n0 n1 n2. subst n0 n1 n2.
  destruct (N2_contributions_exact x y Hx Hy)
    as [(E0 & E1 & E2) (R0 & R1 & R2)].
  change (2 ^ 28) with 268435456.
  split; [split; [exact E0 | split; [exact E1 | exact E2]] |].
  split; [repeat split; lia |].
  unfold Noise2. rewrite E0, E1, E2. unfold N2.finish. cbv zeta.
  unfold add32 at 2. rewrite (int32_id (_ + _)) by (in_range; lia).
  unfold add32. rewrite (int32_id (_ + _ + _)) by (in_range; lia).
  unfold shl32. rewrite Z.shiftl_mul_pow2 by lia. change (2 ^ 6) with 64.
  apply finish_quot; lia.
Qed.

Lemma Noise2_no_overflow_before_scaling_witness :
  N2.n0 (- 2 ^ 31) (2 ^ 31 - 1) = Some (N2Z.n0 (- 2 ^ 31) (2 ^ 31 - 1)) /\
  N2.n1 1000 2000 = Some (N2Z.n1 1000 2000).
Proof.
  assert (H1 : is_int32 (- 2 ^ 31)) by (unfold is_int32; lia).
  assert (H2 : is_int32 (2 ^ 31 - 1)) by (unfold is_int32; lia).
  assert (H3 : is_int32 1000) by (unfold is_int32; lia).
  assert (H4 : is_int32 2000) by (unfold is_int32; lia).
  pose proof (Noise2_no_overflow_before_scaling _ _ H1 H2) as A.
  pose proof (Noise2_no_overflow_before_scaling _ _ H3 H4) as B.
  cbv zeta in A, B.
  destruct A as ((A0 & _) & _). destruct B as ((_ & B1 & _) & _).
  exact (conj A0 B1).
Defined.

(** X9. In [Noise3] the search of the lattice cell and the unskewing are
    exact on every [int32] input: the cell indices stay below 2^20 in
    magnitude, the offsets from the cell origin are
    [x*2^20 - i*2^32 + (i+j+k)*G3] (and likewise for y and z), and they stay
    within the cell, between -0.335 and 0.835 lattice units. *)
Theorem Noise3_cell (x y z : Z) :
  is_int32 x -> is_int32 y -> is_int32 z ->
  let i := N3.i x y z in
  let j := N3.j x y z in
  let k := N3.k x y z in
  (- 2 ^ 20 <= i <= 2 ^ 20 /\ - 2 ^ 20 <= j <= 2 ^ 20 /\
   - 2 ^ 20 <= k <= 2 ^ 20) /\
  (N3.x0 x y z = x * 2 ^ 20 - i * 2 ^ 32 + (i + j + k) * N3.G3 /\
   N3.y0 x y z = y * 2 ^ 20 - j * 2 ^ 32 + (i + j + k) * N3.G3 /\
   N3.z0 x y z = z * 2 ^ 20 - k * 2 ^ 32 + (i + j + k) * N3.G3) /\
  (- 1437947222 <= N3.x0 x y z <= 3585430869 /\
   - 1437947222 <= N3.y0 x y z <= 3585430869 /\
   - 1437947222 <= N3.z0 x y z <= 3585430869).
Proof.
  intros Hx Hy Hz i j k. subst i j k.
  destruct (N3_ijk_exact x y z Hx Hy Hz) as (-> & -> & ->).
  destruct (N3_origin_exact x y z Hx Hy Hz) as (-> & -> & ->).
  destruct (N3Z_cell_bounds x y z Hx Hy Hz) as [B B'].
  change (2 ^ 20) with 1048576. change (2 ^ 32) with 4294967296.
  split; [exact B |]. split; [| exact B'].
  unfold N3Z.x0, N3Z.y0, N3Z.z0, N3Z.X0, N3Z.Y0, N3Z.Z0, N3Z.t.
  rewrite !Z.shiftl_mul_pow2 by lia.
  change (2 ^ 20) with 1048576. change (2 ^ 32) with 4294967296.
  split; [ring | split; ring].
Qed.

Lemma Noise3_cell_witness :
  - 1437947222 <= N3.x0 (- 2 ^ 31) (2 ^ 31 - 1) (- 1) <= 3585430869 /\
  - 1437947222 <= N3.z0 (- 2 ^ 31) (2 ^ 31 - 1) (- 1) <= 3585430869.
Proof.
  assert (H1 : is_int32 (- 2 ^ 31)) by (unfold is_int32; lia).
  assert (H2 : is_int32 (2 ^ 31 - 1)) by (unfold is_int32; lia).
  assert (H3 : is_int32 (- 1)) by (unfold is_int32; lia).
  pose proof (Noise3_cell _ _ _ H1 H2 H3) as H.
  cbv zeta in H. destruct H as (_ & _ & A & _ & B). exact (conj A B).
Defined.

(** X10. On every [int32] input no operation of [Noise3] wraps before the
    final shift: the four contributions are the values computed in
    unbounded integers, each of magnitude at most 2^28, their sum is exact,
    and the result is that sum shifted by 6 in [int32], divided by 64120
    and truncated to [int16]. *)
Theorem Noise3_no_overflow_before_scaling (x y z : Z) :
  is_int32 x -> is_int32 y -> is_int32 z ->
  let n0 := N3Z.n0 x y z in
  let n1 := N3Z.n1 x y z in
  let n2 := N3Z.n2 x y z in
  let n3 := N3Z.n3 x y z in
  (N3.n0 x y z = Some n0 /\ N3.n1 x y z = Some n1 /\
   N3.n2 x y z = Some n2 /\ N3.n3 x y z = Some n3) /\
  (Z.abs n0 <= 2 ^ 28 /\ Z.abs n1 <= 2 ^ 28 /\ Z.abs n2 <= 2 ^ 28 /\
   Z.abs n3 <= 2 ^ 28) /\
  Noise3 x y z
  = Some (int16 (Z.quot (int32 ((n0 + n1 + n2 + n3) * 64)) 64120)).
Proof.
  intros Hx Hy Hz n0 n1 n2 n3. subst n0 n1 n2 n3.
  destruct (N3_contributions_exact x y z Hx Hy Hz)
    as [(E0 & E1 & E2 & E3) (R0 & R1 & R2 & R3)].
  change (2 ^ 28) with 268435456.
  split; [split; [exact E0 | split; [exact E1 | split; [exact E2 | exact E3]]] |].
  split; [repeat split; lia |].
  unfold Noise3. rewrite E0, E1, E2, E3. unfold N3.finish. cbv zeta.
  unfold add32 at 3. rewrite (int32_id (_ + _)) by (in_range; lia).
  unfold add32 at 2. rewrite (int32_id (_ + _ + _)) by (in_range; lia).
  unfold add32. rewrite (int32_id (_ + _ + _ + _)) by (in_range; lia).
  unfold shl32. rewrite Z.shiftl_mul_pow2 by lia. change (2 ^ 6) with 64.
  apply finish_quot; lia.
Qed.

Lemma Noise3_no_overflow_before_scaling_witness :
  N3.n0 (- 2 ^ 31) (2 ^ 31 - 1) (- 1)
  = Some (N3Z.n0 (- 2 ^ 31) (2 ^ 31 - 1) (- 1)) /\
  N3.n3 1000 2000 3000 = Some (N3Z.n3 1000 2000 3000).
Proof.
  assert (H1 : is_int32 (- 2 ^ 31)) by (unfold is_int32; lia).
  assert (H2 : is_int32 (2 ^ 31 - 1)) by (unfold is_int32; lia).
  assert (H3 : is_int32 (- 1)) by (unfold is_int32; lia).
  assert (H4 : is_int32 1000) by (unfold is_int32; lia).
  assert (H5 : is_int32 2000) by (unfold is_int32; lia).
  assert (H6 : is_int32 3000) by (unfold is_int32; lia).
  pose proof (Noise3_no_overflow_before_scaling _ _ _ H1 H2 H3) as A.
  pose proof (Noise3_no_overflow_before_scaling _ _ _ H4 H5 H6) as B.
  cbv zeta in A, B.
  destruct A as ((A0 & _) & _). destruct B as ((_ & _ & _ & B3) & _).
  exact (conj A0 B3).
Defined.

(** X11. The corner offsets chosen by [Noise2] and [Noise3] walk along the
    lattice: every offset is 0 or 1; in 2D the middle corner is one step
    from the cell origin; in 3D the second corner is one step from the
    origin and the third adds one step along another axis, so that the
    last corner (1,1,1) is again one step further. *)
Theorem simplex_traversal (x y z : Z) :
  ((N2.i1 x y = 1 /\ N2.j1 x y = 0) \/ (N2.i1 x y = 0 /\ N2.j1 x y = 1)) /\
  (0 <= N3.i1 x y z <= N3.i2 x y z /\ N3.i2 x y z <= 1) /\
  (0 <= N3.j1 x y z <= N3.j2 x y z /\ N3.j2 x y z <= 1) /\
  (0 <= N3.k1 x y z <= N3.k2 x y z /\ N3.k2 x y z <= 1) /\
  N3.i1 x y z + N3.j1 x y z + N3.k1 x y z = 1 /\
  N3.i2 x y z + N3.j2 x y z + N3.k2 x y z = 2.
Proof.
  split.
  - unfold N2.i1, N2.j1. destruct (N2.y0 x y <? N2.x0 x y); auto.
  - unfold N3.i1, N3.j1, N3.k1, N3.i2, N3.j2, N3.k2.
    pose proof (order_path (N3.x0 x y z) (N3.y0 x y z) (N3.z0 x y z)) as H.
    destruct (N3.order (N3.x0 x y z) (N3.y0 x y z) (N3.z0 x y z))
      as [[[a b] c] [[d e] f]].
    cbn [fst snd]. exact H.
Qed.

(** ** The final shift of [Noise2] *)

(** *** Geometry of the three corners *)

Lemma pair_of_squares (p q a b : Z) :
  a * a + b * b
  <= 2 * (p * p + q * q + (p - a) * (p - a) + (q - b) * (q - b)).
Proof.
  pose proof (Z.square_nonneg (2 * p - a)).
  pose proof (Z.square_nonneg (2 * q - b)). nia.
Qed.

Lemma triple_of_squares (p q a1 b1 a2 b2 : Z) :
  2 * (a1 * a1 + a2 * a2 - a1 * a2) + 2 * (b1 * b1 + b2 * b2 - b1 * b2)
  <= 3 * (p * p + q * q + (p - a1) * (p - a1) + (q - b1) * (q - b1)
          + (p - a2) * (p - a2) + (q - b2) * (q - b2)).
Proof.
  pose proof (Z.square_nonneg (3 * p - a1 - a2)).
  pose proof (Z.square_nonneg (3 * q - b1 - b2)). nia.
Qed.

(** The Q.16 offset of a later corner differs from that of the first by a
    constant, up to one unit of rounding. *)
Lemma shifted_offset (a c : Z) :
  exists d, (d = 0 \/ d = 1) /\
            Z.shiftr (a + c) 16 = Z.shiftr a 16 + c / 65536 + d.
Proof.
  exists (Z.shiftr (a + c) 16 - Z.shiftr a 16 - c / 65536).
  split; [div_lia | ring].
Qed.

(** The falloff is at most [0.5 - d^2], rounded. *)
Lemma falloff2_above (a b : Z) :
  65536 * N2Z.falloff a b
  <= 2147483648 - (Z.shiftr a 16 * Z.shiftr a 16 + Z.shiftr b 16 * Z.shiftr b 16).
Proof.
  unfold N2Z.falloff. change (Z.shiftl 1 31) with 2147483648.
  set (p := Z.shiftr a 16). set (q := Z.shiftr b 16).
  generalize (p * p) (q * q). intros P Q. div_lia.
Qed.

Lemma N2_falloff_sums (a b i1 j1 : Z) :
  (i1 = 1 /\ j1 = 0) \/ (i1 = 0 /\ j1 = 1) ->
  let t0 := N2Z.falloff a b in
  let t1 := N2Z.falloff (a - Z.shiftl i1 32 + N2.G2) (b - Z.shiftl j1 32 + N2.G2) in
  let t2 := N2Z.falloff (a - Z.shiftl 1 32 + 2 * N2.G2)
                        (b - Z.shiftl 1 32 + 2 * N2.G2) in
  t0 + t1 <= 43700 /\ t0 + t2 <= 43700 /\ t1 + t2 <= 43700 /\
  t0 + t1 + t2 <= 54633.
Proof.
  intros Hij t0 t1 t2.
  pose proof (falloff2_above a b) as F0.
  pose proof (falloff2_above (a - Z.shiftl i1 32 + N2.G2)
                (b - Z.shiftl j1 32 + N2.G2)) as F1.
  pose proof (falloff2_above (a - Z.shiftl 1 32 + 2 * N2.G2)
                (b - Z.shiftl 1 32 + 2 * N2.G2)) as F2.
  fold t0 in F0. fold t1 in F1. fold t2 in F2. clearbody t0 t1 t2.
  revert F0 F1 F2. unfold N2.G2. rewrite !Z.shiftl_mul_pow2 by lia.
  change (2 ^ 32) with 4294967296.
  replace (a - i1 * 4294967296 + 907633384)
    with (a + (907633384 - i1 * 4294967296)) by ring.
  replace (b - j1 * 4294967296 + 907633384)
    with (b + (907633384 - j1 * 4294967296)) by ring.
  replace (a - 1 * 4294967296 + 2 * 907633384) with (a + -2479700528) by ring.
  replace (b - 1 * 4294967296 + 2 * 907633384) with (b + -2479700528) by ring.
  destruct (shifted_offset a (907633384 - i1 * 4294967296)) as (d1 & Hd1 & ->).
  destruct (shifted_offset b (907633384 - j1 * 4294967296)) as (d2 & Hd2 & ->).
  destruct (shifted_offset a (-2479700528)) as (d3 & Hd3 & ->).
  destruct (shifted_offset b (-2479700528)) as (d4 & Hd4 & ->).
  change (-2479700528 / 65536) with (-37838).
  set (p := Z.shiftr a 16). set (q := Z.shiftr b 16). clearbody p q.
  intros F0 F1 F2.
  destruct Hij as [[-> ->] | [-> ->]];
    [ change ((907633384 - 1 * 4294967296) / 65536) with (-51687) in F1;
      change ((907633384 - 0 * 4294967296) / 65536) with 13849 in F1
    | change ((907633384 - 0 * 4294967296) / 65536) with 13849 in F1;
      change ((907633384 - 1 * 4294967296) / 65536) with (-51687) in F1 ].
  all: destruct Hd1 as [-> | ->], Hd2 as [-> | ->], Hd3 as [-> | ->],
         Hd4 as [-> | ->].
  all: match type of F1 with
       | _ <= _ - ((?P + ?a + ?d) * _ + (?Q + ?b + ?e) * _) =>
           match type of F2 with
           | _ <= _ - ((_ + ?a' + ?d') * _ + (_ + ?b' + ?e') * _) =>
               pose proof (pair_of_squares P Q (- (a + d)) (- (b + e)));
               pose proof (pair_of_squares P Q (- (a' + d')) (- (b' + e')));
               pose proof (pair_of_squares (P + a + d) (Q + b + e)
                             (a + d - (a' + d')) (b + e - (b' + e')));
               pose proof (triple_of_squares P Q (- (a + d)) (- (b + e))
                             (- (a' + d')) (- (b' + e')))
           end
       end.
  all: lia.
Qed.

(** *** The contribution of one corner *)

Lemma weigh_T4 (t g : Z) : 0 < t -> weigh t g = N2_T4 t * g.
Proof.
  intros Ht. unfold weigh, N2_T4.
  destruct (Z.ltb_spec 0 t); [reflexivity | lia].
Qed.

Lemma N2_T4_nonneg (t : Z) : 0 <= N2_T4 t.
Proof.
  unfold N2_T4. cbv zeta.
  generalize (Z.shiftr (t * t) 16). intros t2.
  pose proof (Z.square_nonneg t2). generalize dependent (t2 * t2).
  intros s Hs. div_lia.
Qed.

(** A gradient of [grad2] against offsets of squared length at most [R]:
    twice its magnitude is at most the root of [5 R], plus the rounding
    of the two halvings. *)
Lemma dot2_by_distance (h p q R : Z) :
  p * p + q * q <= R ->
  Z.abs (dot2 h (Z.shiftr p 1) (Z.shiftr q 1)) <= (Z.sqrt (5 * R) + 3) / 2.
Proof.
  intros HR. unfold dot2.
  destruct (grad2_dir_shape h) as [_ Hd].
  destruct (grad2_dir h) as [a b]. cbn [fst snd] in *.
  set (u := Z.shiftr p 1). set (v := Z.shiftr q 1).
  assert (Hu : 2 * Z.abs u <= Z.abs p + 1) by (subst u; div_lia).
  assert (Hv : 2 * Z.abs v <= Z.abs q + 1) by (subst v; div_lia).
  clearbody u v.
  pose proof (Z.abs_square p) as Sp. pose proof (Z.abs_square q) as Sq.
  pose proof (Z.abs_nonneg p) as Np. pose proof (Z.abs_nonneg q) as Nq.
  set (P := Z.abs p) in *. set (Q := Z.abs q) in *. clearbody P Q.
  assert (Hm : forall m, 0 <= m -> m * m <= 5 * R -> m <= Z.sqrt (5 * R)).
  { intros m Hm0 Hm2. apply Z.sqrt_le_square; lia. }
  assert (H12 : P + 2 * Q <= Z.sqrt (5 * R)).
  { apply Hm; [lia |]. pose proof (Z.square_nonneg (2 * P - Q)). nia. }
  assert (H21 : 2 * P + Q <= Z.sqrt (5 * R)).
  { apply Hm; [lia |]. pose proof (Z.square_nonneg (P - 2 * Q)). nia. }
  assert (Hg : 2 * Z.abs (a * u + b * v) <= Z.sqrt (5 * R) + 3).
  { assert (Z.abs (a * u + b * v) <= Z.abs a * Z.abs u + Z.abs b * Z.abs v).
    { rewrite <- !Z.abs_mul. apply Z.abs_triangle. }
    destruct Hd as [[Ha Hb] | [Ha Hb]]; rewrite Ha, Hb in *; lia. }
  generalize dependent (Z.sqrt (5 * R)). intros S _ _ _ Hg.
  generalize dependent (Z.abs (a * u + b * v)). intros G HG.
  Z.div_mod_to_equations. lia.
Qed.

Lemma N2_contribution_bounded (h a b : Z) :
  Z.abs (weigh (N2Z.falloff a b)
           (dot2 h (Z.shiftr a 17) (Z.shiftr b 17)))
  <= N2_bound (N2Z.falloff a b).
Proof.
  pose proof (falloff2_above a b) as HF.
  set (t := N2Z.falloff a b) in *. clearbody t.
  unfold N2_bound. destruct (Z.ltb_spec 0 t) as [Hpos | Hneg].
  - rewrite weigh_T4 by exact Hpos.
    assert (Ra : Z.shiftr a 17 = Z.shiftr (Z.shiftr a 16) 1)
      by (rewrite Z.shiftr_shiftr by lia; reflexivity).
    assert (Rb : Z.shiftr b 17 = Z.shiftr (Z.shiftr b 16) 1)
      by (rewrite Z.shiftr_shiftr by lia; reflexivity).
    rewrite Ra, Rb.
    pose proof (dot2_by_distance h (Z.shiftr a 16) (Z.shiftr b 16)
                  (2147483648 - 65536 * t) ltac:(lia)) as Hg.
    pose proof (N2_T4_nonneg t) as HT.
    rewrite Z.abs_mul, (Z.abs_eq (N2_T4 t)) by exact HT.
    apply Z.mul_le_mono_nonneg_l; assumption.
  - unfold weigh. destruct (Z.ltb_spec 0 t); [lia | reflexivity].
Qed.

(** *** The table of bounds *)

Lemma forallb_upto2 (f : Z -> Z -> bool) (n m : nat) :
  forallb (fun a => forallb (fun b => f a b) (upto m)) (upto n) = true ->
  forall a b, 0 <= a < Z.of_nat n -> 0 <= b < Z.of_nat m -> f a b = true.
Proof.
  intros H a b Ha Hb.
  rewrite forallb_forall in H. specialize (H a (proj2 (upto_spec n a) Ha)).
  rewrite forallb_forall in H. exact (H b (proj2 (upto_spec m b) Hb)).
Qed.

Lemma N2_dominated_unfold (b r : Z) :
  N2_dominated b r = (N2_bound (1024 * b + r) <=? N2_bucket_of b).
Proof. reflexivity. Qed.

Lemma N2_dominated_all :
  forallb (fun b => forallb (fun r => N2_dominated b r) (upto 1024))
          (upto 33) = true.
Proof. vm_compute. reflexivity. Qed.

Lemma N2_bound_clamped (t : Z) : N2_bound t = N2_bound (Z.max t 0).
Proof.
  unfold N2_bound.
  destruct (Z.ltb_spec 0 t) as [H | H].
  - rewrite (Z.max_l t 0) by lia.
    destruct (Z.ltb_spec 0 t); [reflexivity | lia].
  - rewrite (Z.max_r t 0) by lia. reflexivity.
Qed.

Lemma N2_bound_bucket (t : Z) :
  t <= 32768 -> N2_bound t <= N2_bucket_of (Z.max t 0 / 1024).
Proof.
  intros Ht. rewrite N2_bound_clamped.
  set (u := Z.max t 0). assert (Hu : 0 <= u <= 32768) by (subst u; lia).
  clearbody u.
  pose proof (Z.div_mod u 1024 ltac:(lia)) as E.
  pose proof (Z.mod_pos_bound u 1024 ltac:(lia)) as Hr.
  assert (Hb : 0 <= u / 1024 < 33) by div_lia.
  pose proof (forallb_upto2 _ _ _ N2_dominated_all (u / 1024) (u mod 1024)
                ltac:(lia) ltac:(lia)) as H.
  rewrite N2_dominated_unfold, <- E in H. apply Z.leb_le. exact H.
Qed.

Lemma forallb_upto3 (f : Z -> Z -> Z -> bool) (n : nat) :
  forallb (fun a => forallb (fun b => forallb (fun c => f a b c) (upto n))
                            (upto n)) (upto n) = true ->
  forall a b c, 0 <= a < Z.of_nat n -> 0 <= b < Z.of_nat n ->
                0 <= c < Z.of_nat n -> f a b c = true.
Proof.
  intros H a b c Ha Hb Hc.
  rewrite forallb_forall in H. specialize (H a (proj2 (upto_spec n a) Ha)).
  rewrite forallb_forall in H. specialize (H b (proj2 (upto_spec n b) Hb)).
  rewrite forallb_forall in H. exact (H c (proj2 (upto_spec n c) Hc)).
Qed.

Lemma N2_triple_ok_unfold (a b c : Z) :
  N2_triple_ok a b c =
  if (1024 * (a + b) <=? 43700) && (1024 * (a + c) <=? 43700)
     && (1024 * (b + c) <=? 43700) && (1024 * (a + b + c) <=? 54633)
  then N2_bucket_of a + N2_bucket_of b + N2_bucket_of c <? 33554432
  else true.
Proof. reflexivity. Qed.

Lemma N2_triples_all :
  forallb (fun a => forallb (fun b => forallb (fun c => N2_triple_ok a b c)
                                              (upto 33))
                            (upto 33)) (upto 33) = true.
Proof. vm_compute. reflexivity. Qed.

(** Three falloffs that fit a simplex leave the sum of the bounds below
    2^25. *)
Lemma N2_bounds_sum (t0 t1 t2 : Z) :
  t0 <= 32768 -> t1 <= 32768 -> t2 <= 32768 ->
  t0 + t1 <= 43700 -> t0 + t2 <= 43700 -> t1 + t2 <= 43700 ->
  t0 + t1 + t2 <= 54633 ->
  N2_bound t0 + N2_bound t1 + N2_bound t2 < 33554432.
Proof.
  intros H0 H1 H2 H01 H02 H12 H012.
  pose proof (N2_bound_bucket t0 H0) as B0.
  pose proof (N2_bound_bucket t1 H1) as B1.
  pose proof (N2_bound_bucket t2 H2) as B2.
  set (a := Z.max t0 0 / 1024) in *. set (b := Z.max t1 0 / 1024) in *.
  set (c := Z.max t2 0 / 1024) in *.
  assert (Ha : 0 <= a < 33 /\ 1024 * a <= Z.max t0 0) by (subst a; div_lia).
  assert (Hb : 0 <= b < 33 /\ 1024 * b <= Z.max t1 0) by (subst b; div_lia).
  assert (Hc : 0 <= c < 33 /\ 1024 * c <= Z.max t2 0) by (subst c; div_lia).
  clearbody a b c.
  pose proof (forallb_upto3 _ _ N2_triples_all a b c
                ltac:(lia) ltac:(lia) ltac:(lia)) as H.
  rewrite N2_triple_ok_unfold in H.
  replace ((1024 * (a + b) <=? 43700) && (1024 * (a + c) <=? 43700)
           && (1024 * (b + c) <=? 43700) && (1024 * (a + b + c) <=? 54633))
    with true in H by lia.
  lia.
Qed.

Lemma falloff2_le_half (a b : Z) : N2Z.falloff a b <= 32768.
Proof.
  pose proof (falloff2_above a b) as H.
  pose proof (Z.square_nonneg (Z.shiftr a 16)).
  pose proof (Z.square_nonneg (Z.shiftr b 16)). lia.
Qed.

(** The sum of the three contributions, in unbounded integers, is below
    2^25 in magnitude, for any input. *)
Lemma N2Z_sum_bound (x y : Z) :
  Z.abs (N2Z.n0 x y + N2Z.n1 x y + N2Z.n2 x y) < 33554432.
Proof.
  assert (Hij : (N2Z.i1 x y = 1 /\ N2Z.j1 x y = 0) \/
                (N2Z.i1 x y = 0 /\ N2Z.j1 x y = 1)).
  { unfold N2Z.i1, N2Z.j1. destruct (N2Z.y0 x y <? N2Z.x0 x y); auto. }
  pose proof (N2_falloff_sums (N2Z.x0 x y) (N2Z.y0 x y) _ _ Hij) as HS.
  cbv zeta in HS. destruct HS as (H01 & H02 & H12 & H012).
  unfold N2Z.n0, N2Z.n1, N2Z.n2, N2Z.t0, N2Z.t1, N2Z.t2,
    N2Z.x1, N2Z.y1, N2Z.x2, N2Z.y2.
  pose proof (N2_contribution_bounded
                (perm_byte (N2Z.i x y + perm_byte (N2Z.j x y)))
                (N2Z.x0 x y) (N2Z.y0 x y)) as C0.
  pose proof (N2_contribution_bounded
                (perm_byte (N2Z.i x y + N2Z.i1 x y
                            + perm_byte (N2Z.j x y + N2Z.j1 x y)))
                (N2Z.x0 x y - Z.shiftl (N2Z.i1 x y) 32 + N2.G2)
                (N2Z.y0 x y - Z.shiftl (N2Z.j1 x y) 32 + N2.G2)) as C1.
  pose proof (N2_contribution_bounded
                (perm_byte (N2Z.i x y + 1 + perm_byte (N2Z.j x y + 1)))
                (N2Z.x0 x y - Z.shiftl 1 32 + 2 * N2.G2)
                (N2Z.y0 x y - Z.shiftl 1 32 + 2 * N2.G2)) as C2.
  pose proof (falloff2_le_half (N2Z.x0 x y) (N2Z.y0 x y)) as L0.
  pose proof (falloff2_le_half
                (N2Z.x0 x y - Z.shiftl (N2Z.i1 x y) 32 + N2.G2)
                (N2Z.y0 x y - Z.shiftl (N2Z.j1 x y) 32 + N2.G2)) as L1.
  pose proof (falloff2_le_half
                (N2Z.x0 x y - Z.shiftl 1 32 + 2 * N2.G2)
                (N2Z.y0 x y - Z.shiftl 1 32 + 2 * N2.G2)) as L2.
  pose proof (N2_bounds_sum _ _ _ L0 L1 L2 H01 H02 H12 H012) as HB.
  lia.
Qed.

(** X12. On every [int32] input the final shift of [Noise2] does not
    overflow either: the sum of the three contributions is below 2^25 in
    magnitude, so [n << 6] is the product by 64 and the result is
    [int16(((n0 + n1 + n2) * 64) / 46360)] over unbounded integers.  Only
    the last conversion, to [int16], can lose information. *)
Theorem Noise2_int32_exact (x y : Z) :
  is_int32 x -> is_int32 y ->
  let n := N2Z.n0 x y + N2Z.n1 x y + N2Z.n2 x y in
  Z.abs n < 2 ^ 25 /\
  shl32 n 6 = n * 64 /\
  Noise2 x y = Some (int16 (Z.quot (n * 64) 46360)).
Proof.
  intros Hx Hy n. subst n.
  pose proof (N2Z_sum_bound x y) as HB.
  destruct (N2_contributions_exact x y Hx Hy)
    as [(E0 & E1 & E2) (R0 & R1 & R2)].
  change (2 ^ 25) with 33554432.
  assert (Es : shl32 (N2Z.n0 x y + N2Z.n1 x y + N2Z.n2 x y) 6
               = (N2Z.n0 x y + N2Z.n1 x y + N2Z.n2 x y) * 64).
  { unfold shl32. rewrite Z.shiftl_mul_pow2 by lia. change (2 ^ 6) with 64.
    apply int32_id. in_range. lia. }
  split; [exact HB |]. split; [exact Es |].
  unfold Noise2. rewrite E0, E1, E2. unfold N2.finish. cbv zeta.
  unfold add32 at 2. rewrite (int32_id (_ + _)) by (in_range; lia).
  unfold add32. rewrite (int32_id (_ + _ + _)) by (in_range; lia).
  rewrite Es. unfold div32. change (46360 =? 0) with false. cbv iota.
  rewrite int32_id; [reflexivity |].
  apply quot_small; [lia |]. in_range. lia.
Qed.

Lemma Noise2_int32_exact_witness :
  Noise2 (- 2 ^ 31) (2 ^ 31 - 1)
  = Some (int16 (Z.quot ((N2Z.n0 (- 2 ^ 31) (2 ^ 31 - 1)
                          + N2Z.n1 (- 2 ^ 31) (2 ^ 31 - 1)
                          + N2Z.n2 (- 2 ^ 31) (2 ^ 31 - 1)) * 64) 46360)).
Proof.
  assert (H1 : is_int32 (- 2 ^ 31)) by (unfold is_int32; lia).
  assert (H2 : is_int32 (2 ^ 31 - 1)) by (unfold is_int32; lia).
  pose proof (Noise2_int32_exact _ _ H1 H2) as A.
  cbv zeta in A. destruct A as (_ & _ & A). exact A.
Defined.
